(** * FlowLogsAnalyzer: a shallow embedding of [main.py]

    The script parses a tag-mapping CSV into a lookup table, joins a
    flow-log CSV against it, and writes a three-section report.

    Modelling conventions.
    - Python [str] is [string]; the text handled is ASCII, so [str.lower]
      acts on the letters [A-Z] and [str.strip] on the ASCII white space.
    - Python [int] is [Z] (unbounded); [int(s)] follows the decimal
      grammar of the interpreter on ASCII text, with the interpreter's
      default limit of 4300 digits on an integer text.
    - A text file is the list of lines that iterating over the file object
      yields, the header line first.
    - A [dict] is an association list in insertion order: assigning to a
      key that is present replaces the value in place, assigning to a new
      key appends.  The report iterates over the dictionary, so the order
      is observable.
    - A generator is the list of events it produces, log entries included,
      so that the interleaving of the log with the consumer is kept.
    - Log entries are kept structured: the format string is a constructor
      and the interpolated values are its arguments. *)

From Stdlib Require Import ZArith List String Ascii Bool Lia Permutation.
From Stdlib Require Import Numbers.DecimalString Numbers.DecimalPos.
Import ListNotations.

Open Scope string_scope.
Open Scope Z_scope.

(** ** Python string primitives *)

Module PyStr.

Definition nl : string := String (ascii_of_nat 10) EmptyString.

(** White space for [str.strip()] on ASCII text: TAB..CR, FS..US, SPACE. *)
Definition isspace (c : ascii) : bool :=
  let n := nat_of_ascii c in
  ((9 <=? n) && (n <=? 13) || (28 <=? n) && (n <=? 32))%nat.

(** White space accepted around an integer literal: TAB..CR and SPACE. *)
Definition is_cspace (c : ascii) : bool :=
  let n := nat_of_ascii c in
  ((9 <=? n) && (n <=? 13) || (n =? 32))%nat.

Definition isupper (c : ascii) : bool :=
  let n := nat_of_ascii c in ((65 <=? n) && (n <=? 90))%nat.

Definition isdigit (c : ascii) : bool :=
  let n := nat_of_ascii c in ((48 <=? n) && (n <=? 57))%nat.

Definition lower_ascii (c : ascii) : ascii :=
  if isupper c then ascii_of_nat (nat_of_ascii c + 32) else c.

Fixpoint lower (s : string) : string :=
  match s with
  | EmptyString => EmptyString
  | String c s' => String (lower_ascii c) (lower s')
  end.

Fixpoint lstrip_by (sp : ascii -> bool) (s : string) : string :=
  match s with
  | EmptyString => EmptyString
  | String c s' => if sp c then lstrip_by sp s' else s
  end.

Fixpoint rstrip_by (sp : ascii -> bool) (s : string) : string :=
  match s with
  | EmptyString => EmptyString
  | String c s' =>
      match rstrip_by sp s' with
      | EmptyString => if sp c then EmptyString else String c EmptyString
      | r => String c r
      end
  end.

Definition strip_by (sp : ascii -> bool) (s : string) : string :=
  rstrip_by sp (lstrip_by sp s).

Definition strip : string -> string := strip_by isspace.

(** [s.split(sep)] for a one-character separator: never the empty list. *)
Fixpoint split (sep : ascii) (s : string) : list string :=
  match s with
  | EmptyString => [EmptyString]
  | String c s' =>
      if Ascii.eqb c sep then EmptyString :: split sep s'
      else match split sep s' with
           | [] => [String c EmptyString]
           | p :: ps => String c p :: ps
           end
  end.

Definition join (sep : string) (parts : list string) : string :=
  String.concat sep parts.

(** [s.replace(old, new)] for a non-empty [old]: occurrences are replaced
    left to right without overlap; [skip] counts the characters of the
    occurrence just replaced that are still to be dropped. *)
Fixpoint replace_from (old new : string) (skip : nat) (s : string) : string :=
  match s with
  | EmptyString => EmptyString
  | String c s' =>
      match skip with
      | S k => replace_from old new k s'
      | O =>
          if String.prefix old s
          then new ++ replace_from old new (String.length old - 1) s'
          else String c (replace_from old new 0 s')
      end
  end.

Definition replace (old new s : string) : string := replace_from old new 0 s.

(** The interpreter's default limit on the number of digits of an integer
    text: [int(s)] on more digits and [str(n)] of a longer integer raise
    [ValueError]. *)
Definition max_str_digits : Z := 4300.

(** [str(n)] and [f"{n}"] for an [int] whose text is within the limit. *)
Definition str_of_int (n : Z) : string := NilEmpty.string_of_int (Z.to_int n).

(** How many digits a text holds; signs and underscores do not count. *)
Fixpoint digit_count (s : string) : nat :=
  match s with
  | EmptyString => O
  | String c s' => if isdigit c then S (digit_count s') else digit_count s'
  end.

Definition digit_val (c : ascii) : Z := Z.of_nat (nat_of_ascii c - 48).

(** The digits of an integer literal after its first digit: single
    underscores are allowed between digits only. *)
Fixpoint int_tail (acc : Z) (s : string) : option Z :=
  match s with
  | EmptyString => Some acc
  | String c s' =>
      if isdigit c then int_tail (10 * acc + digit_val c) s'
      else if Ascii.eqb c "_"%char then
        match s' with
        | String d s'' =>
            if isdigit d then int_tail (10 * acc + digit_val d) s'' else None
        | EmptyString => None
        end
      else None
  end.

Definition int_unsigned (s : string) : option Z :=
  match s with
  | String c s' =>
      if isdigit c then
        if Z.of_nat (digit_count s) <=? max_str_digits
        then int_tail (digit_val c) s'
        else None
      else None
  | EmptyString => None
  end.

(** [int(s)]: [None] stands for the [ValueError]. *)
Definition int (s : string) : option Z :=
  match strip_by is_cspace s with
  | String "+"%char s' => int_unsigned s'
  | String "-"%char s' => option_map Z.opp (int_unsigned s')
  | t => int_unsigned t
  end.

End PyStr.

(** ** Data model *)

(** [class IANAProtocolNum(Enum)]: members, values, names. *)
Inductive IANAProtocolNum := ICMP | IPv4 | TCP | UDP | IPv6.

Definition IANAProtocolNum_value (p : IANAProtocolNum) : string :=
  match p with
  | ICMP => "1" | IPv4 => "4" | TCP => "6" | UDP => "17" | IPv6 => "41"
  end.

Definition IANAProtocolNum_name (p : IANAProtocolNum) : string :=
  match p with
  | ICMP => "ICMP" | IPv4 => "IPv4" | TCP => "TCP" | UDP => "UDP" | IPv6 => "IPv6"
  end.

(** [str(member)] of a plain [Enum] is [ClassName.MEMBER]. *)
Definition IANAProtocolNum_str (p : IANAProtocolNum) : string :=
  "IANAProtocolNum." ++ IANAProtocolNum_name p.

(** The index of the counter in a value [[tagRecord, count]] of the table;
    the values are pairs here and the counter is the second component. *)
Definition COUNT : nat := 1.

Inductive Action := Action_ACCEPT | Action_REJECT | Action_UNKNOWN.

Definition Action_value (a : Action) : string :=
  match a with
  | Action_ACCEPT => "ACCEPT" | Action_REJECT => "REJECT" | Action_UNKNOWN => "-"
  end.

Inductive LogStatus := LogStatus_ACCEPT | LogStatus_REJECT | LogStatus_UNKNOWN.

Definition LogStatus_value (a : LogStatus) : string :=
  match a with
  | LogStatus_ACCEPT => "OK"
  | LogStatus_REJECT => "NODATA"
  | LogStatus_UNKNOWN => "SKIPDATA"
  end.

(** Enum call [Cls(v)]: the member whose value equals [v], searched in
    declaration order. *)
Fixpoint enum_lookup {E : Type} (value : E -> string) (members : list E)
  (v : string) : option E :=
  match members with
  | [] => None
  | m :: ms => if String.eqb (value m) v then Some m else enum_lookup value ms v
  end.

Definition IANAProtocolNum_call : string -> option IANAProtocolNum :=
  enum_lookup IANAProtocolNum_value [ICMP; IPv4; TCP; UDP; IPv6].

Definition Action_call : string -> option Action :=
  enum_lookup Action_value [Action_ACCEPT; Action_REJECT; Action_UNKNOWN].

Definition LogStatus_call : string -> option LogStatus :=
  enum_lookup LogStatus_value
    [LogStatus_ACCEPT; LogStatus_REJECT; LogStatus_UNKNOWN].

Module FlowLogRecordV2.
Record t := mk {
  version : Z;
  accountId : string;
  interfaceId : string;
  srcAddr : string;
  dstAddr : string;
  srcPort : Z;
  dstPort : Z;
  protocol : IANAProtocolNum;
  packets : Z;
  numBytes : Z;
  startTimeSecs : Z;
  endTimeSecs : Z;
  action : Action;
  logStatus : LogStatus
}.
End FlowLogRecordV2.

Module TagRecord.
Record t := mk {
  dstPort : Z;
  protocol : string;
  tag : string
}.
End TagRecord.

(** ** Field coercion driven by the class annotations *)

(** The types that occur as annotations, and the values they produce. *)
Inductive FieldType := TInt | TStr | TIANAProtocolNum | TAction | TLogStatus.

Inductive Value :=
| VInt (n : Z)
| VStr (s : string)
| VProtocol (p : IANAProtocolNum)
| VAction (a : Action)
| VLogStatus (l : LogStatus).

(** What the [except Exception as e] clause can catch. *)
Inductive CoerceError :=
| InvalidIntLiteral (v : string)
| NotAValidMember (cls : string) (v : string)
| BadArguments.

(** [_typ(v)] *)
Definition coerce (ty : FieldType) (v : string) : CoerceError + Value :=
  match ty with
  | TInt =>
      match PyStr.int v with
      | Some n => inr (VInt n)
      | None => inl (InvalidIntLiteral v)
      end
  | TStr => inr (VStr v)
  | TIANAProtocolNum =>
      match IANAProtocolNum_call v with
      | Some p => inr (VProtocol p)
      | None => inl (NotAValidMember "IANAProtocolNum" v)
      end
  | TAction =>
      match Action_call v with
      | Some a => inr (VAction a)
      | None => inl (NotAValidMember "Action" v)
      end
  | TLogStatus =>
      match LogStatus_call v with
      | Some l => inr (VLogStatus l)
      | None => inl (NotAValidMember "LogStatus" v)
      end
  end.

(** [[_typ(v) for _typ, v in zip(_types, parts)]]: left to right, the first
    failure aborts the comprehension. *)
Fixpoint coerce_all (types : list FieldType) (parts : list string)
  : CoerceError + list Value :=
  match types, parts with
  | ty :: types', v :: parts' =>
      match coerce ty v with
      | inl e => inl e
      | inr x =>
          match coerce_all types' parts' with
          | inl e => inl e
          | inr xs => inr (x :: xs)
          end
      end
  | _, _ => inr []
  end.

(** A record class as [genRecord] uses it: its name, the values of
    [__annotations__] in declaration order, and its constructor. *)
Record RecordCls (R : Type) := {
  cls_name : string;
  cls_annotations : list FieldType;
  cls_init : list Value -> option R
}.
Arguments cls_name {R} _.
Arguments cls_annotations {R} _.
Arguments cls_init {R} _ _.

Definition TagRecordCls : RecordCls TagRecord.t := {|
  cls_name := "TagRecord";
  cls_annotations := [TInt; TStr; TStr];
  cls_init := fun args =>
    match args with
    | [VInt dstPort; VStr protocol; VStr tag] =>
        Some (TagRecord.mk dstPort protocol tag)
    | _ => None
    end
|}.

Definition FlowLogRecordV2Cls : RecordCls FlowLogRecordV2.t := {|
  cls_name := "FlowLogRecordV2";
  cls_annotations :=
    [TInt; TStr; TStr; TStr; TStr; TInt; TInt; TIANAProtocolNum;
     TInt; TInt; TInt; TInt; TAction; TLogStatus];
  cls_init := fun args =>
    match args with
    | [VInt version; VStr accountId; VStr interfaceId; VStr srcAddr;
       VStr dstAddr; VInt srcPort; VInt dstPort; VProtocol protocol;
       VInt packets; VInt numBytes; VInt startTimeSecs; VInt endTimeSecs;
       VAction action; VLogStatus logStatus] =>
        Some (FlowLogRecordV2.mk version accountId interfaceId srcAddr dstAddr
                srcPort dstPort protocol packets numBytes startTimeSecs
                endTimeSecs action logStatus)
    | _ => None
    end
|}.

(** ** Logging *)

Inductive Level := INFO | WARNING.

Inductive LogMsg :=
| CsvHeader (header : string)
| SkippingInvalidRecord (line : string)
| SkippingLine (line : string) (e : CoerceError)
| Completed (cls : string) (ok skipped total : Z)
| FlowSeen (dstPort : Z) (protocolValue : string).

Definition LogEntry : Type := Level * LogMsg.

(** ** The record parser *)

(** A text file: the lines that iterating over it yields. *)
Definition File : Type := list string.

Inductive Event (R : Type) :=
| Yield (r : R)
| Log (e : LogEntry).
Arguments Yield {R} _.
Arguments Log {R} _.

(** [genFields]: the header is read with [readline] and logged stripped,
    every other line goes through [lineLambda] and is split. *)
Definition genFields (f : File) (lineLambda : string -> string)
  (splitChar : ascii) : list (Event (list string)) :=
  Log (INFO, CsvHeader (PyStr.strip (hd EmptyString f)))
  :: map (fun line => Yield (PyStr.split splitChar (lineLambda line))) (tl f).

(** The body of the [for] loop of [genRecord] on one list of fields, with
    the new values of [counter] and [skipped]. *)
Definition genRecord_step {R : Type} (recordCls : RecordCls R)
  (parts : list string) (counter skipped : Z) : Event R * Z * Z :=
  if negb (Nat.eqb (List.length parts)
             (List.length (cls_annotations recordCls)))
  then (Log (INFO, SkippingInvalidRecord (PyStr.join "," parts)),
        counter, skipped)
  else
    match coerce_all (cls_annotations recordCls) parts with
    | inl e =>
        (Log (WARNING, SkippingLine (PyStr.join "," parts) e),
         counter, skipped + 1)
    | inr args =>
        match cls_init recordCls args with
        | Some r => (Yield r, counter + 1, skipped)
        | None =>
            (Log (WARNING, SkippingLine (PyStr.join "," parts) BadArguments),
             counter, skipped + 1)
        end
    end.

Fixpoint genRecord_loop {R : Type} (recordCls : RecordCls R)
  (fields : list (Event (list string))) (counter skipped : Z)
  : list (Event R) :=
  match fields with
  | [] =>
      [Log (INFO, Completed (cls_name recordCls) counter skipped
                    (skipped + counter))]
  | Log e :: rest => Log e :: genRecord_loop recordCls rest counter skipped
  | Yield parts :: rest =>
      let '(ev, counter', skipped') :=
        genRecord_step recordCls parts counter skipped in
      ev :: genRecord_loop recordCls rest counter' skipped'
  end.

Definition default_lineLambda (line : string) : string := PyStr.strip line.

Definition genRecord {R : Type} (f : File) (recordCls : RecordCls R)
  (lineLambda : string -> string) : list (Event R) :=
  genRecord_loop recordCls (genFields f lineLambda ","%char) 0 0.

(** The records a generator yields, in order. *)
Fixpoint yielded {R : Type} (evs : list (Event R)) : list R :=
  match evs with
  | [] => []
  | Yield r :: rest => r :: yielded rest
  | Log _ :: rest => yielded rest
  end.

(** The log entries a generator emits, in order. *)
Fixpoint logged {R : Type} (evs : list (Event R)) : list LogEntry :=
  match evs with
  | [] => []
  | Yield _ :: rest => logged rest
  | Log e :: rest => e :: logged rest
  end.

(** ** Dictionaries in insertion order *)

Definition Key : Type := Z * string.

Definition key_eqb (a b : Key) : bool :=
  Z.eqb (fst a) (fst b) && String.eqb (snd a) (snd b).

Section Dict.
Context {K V : Type} (eqb : K -> K -> bool).

(** [d.get(k)], [None] when the key is absent. *)
Fixpoint dict_get (k : K) (d : list (K * V)) : option V :=
  match d with
  | [] => None
  | (k', v) :: d' => if eqb k' k then Some v else dict_get k d'
  end.

(** [k in d] *)
Definition dict_mem (k : K) (d : list (K * V)) : bool :=
  match dict_get k d with Some _ => true | None => false end.

(** [d[k] = v]: a present key keeps its position, a new key goes last. *)
Fixpoint dict_set (k : K) (v : V) (d : list (K * V)) : list (K * V) :=
  match d with
  | [] => [(k, v)]
  | (k', v') :: d' =>
      if eqb k' k then (k', v) :: d' else (k', v') :: dict_set k v d'
  end.

(** [d.keys()] *)
Definition dict_keys (d : list (K * V)) : list K := map fst d.

End Dict.

(** [tagMappings]: key to the two-element list [[tagRecord, count]]. *)
Definition TagTable : Type := list (Key * (TagRecord.t * Z)).

(** ** [main]: table build, aggregation, report *)

(** What the process does that can be seen from outside, in order. *)
Inductive IOEvent :=
| Print (line : string)
| LogLine (e : LogEntry)
| OpenRead (path : string)
| OpenWrite (path : string)
| WriteTo (path : string) (data : string).

(** The variables of [main], and what the process has done so far. *)
Record State := {
  tagMappings : TagTable;
  untaggedCounter : Z;
  io : list IOEvent
}.

Definition initial : State :=
  {| tagMappings := []; untaggedCounter := 0; io := [] |}.

Definition do_io (ev : IOEvent) (st : State) : State :=
  {| tagMappings := tagMappings st;
     untaggedCounter := untaggedCounter st;
     io := (io st ++ [ev])%list |}.

(** The logger writes to standard output at level [DEBUG]: every entry
    is emitted. *)
Definition emit (e : LogEntry) (st : State) : State := do_io (LogLine e) st.

Definition tag_lineLambda (line : string) : string :=
  PyStr.lower (PyStr.strip line).

(** One turn of the first loop of [main]. *)
Definition tag_step (st : State) (ev : Event TagRecord.t) : State :=
  match ev with
  | Log e => emit e st
  | Yield tagRecord =>
      {| tagMappings :=
           dict_set key_eqb
             (TagRecord.dstPort tagRecord, TagRecord.protocol tagRecord)
             (tagRecord, 0) (tagMappings st);
         untaggedCounter := untaggedCounter st;
         io := io st |}
  end.

(** [protocolStr]: [str(flowRecord.protocol)], lowered, with the class
    prefix replaced by the empty string. *)
Definition protocolStr_of (p : IANAProtocolNum) : string :=
  PyStr.replace "ianaprotocolnum." EmptyString
    (PyStr.lower (IANAProtocolNum_str p)).

Definition flow_key (flowRecord : FlowLogRecordV2.t) : Key :=
  (FlowLogRecordV2.dstPort flowRecord,
   protocolStr_of (FlowLogRecordV2.protocol flowRecord)).

(** [tagMappings[key][COUNT] += 1]; the statement is only reached with a
    key that is present. *)
Definition bump (key : Key) (tbl : TagTable) : TagTable :=
  match dict_get key_eqb key tbl with
  | Some (tagRecord, count) => dict_set key_eqb key (tagRecord, count + 1) tbl
  | None => tbl
  end.

(** One turn of the second loop of [main]. *)
Definition flow_step (st : State) (ev : Event FlowLogRecordV2.t) : State :=
  match ev with
  | Log e => emit e st
  | Yield flowRecord =>
      let st' :=
        emit (INFO, FlowSeen (FlowLogRecordV2.dstPort flowRecord)
                      (IANAProtocolNum_value
                         (FlowLogRecordV2.protocol flowRecord))) st in
      if dict_mem key_eqb (flow_key flowRecord) (tagMappings st')
      then {| tagMappings := bump (flow_key flowRecord) (tagMappings st');
              untaggedCounter := untaggedCounter st';
              io := io st' |}
      else {| tagMappings := tagMappings st';
              untaggedCounter := untaggedCounter st' + 1;
              io := io st' |}
  end.

Definition tag_events (tagFile : File) : list (Event TagRecord.t) :=
  genRecord tagFile TagRecordCls tag_lineLambda.

Definition flow_events (flowFile : File) : list (Event FlowLogRecordV2.t) :=
  genRecord flowFile FlowLogRecordV2Cls default_lineLambda.

(** The first loop of [main], from the state [st]. *)
Definition build (st : State) (tagFile : File) : State :=
  fold_left tag_step (tag_events tagFile) st.

(** The second loop of [main], from the state [st]. *)
Definition aggregate (st : State) (flowFile : File) : State :=
  fold_left flow_step (flow_events flowFile) st.

(** Both loops on the contents of the two files: the state of [main] when
    it reaches the report. *)
Definition run (flowFile tagFile : File) : State :=
  aggregate (build initial tagFile) flowFile.

(** [tagCounts[tag] += n] on a [defaultdict(int)]. *)
Definition tagCounts_add (tag : string) (n : Z) (tagCounts : list (string * Z))
  : list (string * Z) :=
  match dict_get String.eqb tag tagCounts with
  | Some c => dict_set String.eqb tag (c + n) tagCounts
  | None => dict_set String.eqb tag (0 + n) tagCounts
  end.

(** The first loop under [with open(outputPath, "w")]: it walks the keys and
    reads each entry back through the key, which is always present. *)
Definition tagCounts_of (tbl : TagTable) : list (string * Z) :=
  fold_left
    (fun tagCounts key =>
       match dict_get key_eqb key tbl with
       | Some (tagRecord, count) =>
           tagCounts_add (TagRecord.tag tagRecord) count tagCounts
       | None => tagCounts
       end)
    (dict_keys tbl) [].

Definition tag_line (item : string * Z) : string :=
  fst item ++ "," ++ PyStr.str_of_int (snd item) ++ PyStr.nl.

Definition key_line (tbl : TagTable) (key : Key) : string :=
  match dict_get key_eqb key tbl with
  | Some (_, count) =>
      PyStr.str_of_int (fst key) ++ "," ++ snd key ++ ","
        ++ PyStr.str_of_int count ++ PyStr.nl
  | None => EmptyString
  end.

Definition tag_header : string := "Tag,Count" ++ PyStr.nl.

Definition key_header : string := "Port,Protocol,Count" ++ PyStr.nl.

Definition untagged_line (untagged : Z) : string :=
  "Untagged," ++ PyStr.str_of_int untagged ++ PyStr.nl.

(** The arguments of the successive [f.write] calls. *)
Definition report_writes (tbl : TagTable) (untagged : Z) : list string :=
  (tag_header :: map tag_line (tagCounts_of tbl)
   ++ key_header :: map (key_line tbl) (dict_keys tbl)
   ++ [untagged_line untagged])%list.

(** The content of the output file. *)
Definition report (tbl : TagTable) (untagged : Z) : string :=
  String.concat EmptyString (report_writes tbl untagged).

(** ** The script: arguments, files, exit status *)

(** The file system as the script meets it. [read_file w path] is the
    list of lines of a file that can be opened and is read to its end,
    and [None] when [open(path, "r")] raises; [can_write w path] tells
    whether [open(path, "w")] succeeds, the writes and the close that
    follow then succeeding too. A read or a write that breaks off after
    its [open] has succeeded is not represented. *)
Record World := {
  read_file : string -> option File;
  can_write : string -> bool
}.

Record Outcome := {
  trace : list IOEvent;
  exit_status : Z
}.

Definition usage_text : string :=
  "python3 main.py <PATH_TO_FLOW_LOGS.csv> <PATH_TO_TAG_MAPPINGS.csv> <PATH_TO_OUTPUT.csv>".

(** [usage()] *)
Definition usage : list IOEvent := [Print usage_text].

(** An [open] that fails raises, nothing catches it, and the interpreter
    exits with status 1. *)
Definition fatal (st : State) : Outcome :=
  {| trace := io st; exit_status := 1 |}.

(** [main(flowlogsPath, tagMappingsPath, outputPath)]: each generator opens
    its file when the loop over it starts. *)
Definition main (w : World) (flowlogsPath tagMappingsPath outputPath : string)
  : Outcome :=
  let st0 := do_io (OpenRead tagMappingsPath) initial in
  match read_file w tagMappingsPath with
  | None => fatal st0
  | Some tagFile =>
      let st1 := do_io (OpenRead flowlogsPath) (build st0 tagFile) in
      match read_file w flowlogsPath with
      | None => fatal st1
      | Some flowFile =>
          let st2 := do_io (OpenWrite outputPath) (aggregate st1 flowFile) in
          if can_write w outputPath
          then {| trace :=
                    (io st2
                     ++ map (WriteTo outputPath)
                          (report_writes (tagMappings st2)
                             (untaggedCounter st2)))%list;
                  exit_status := 0 |}
          else fatal st2
      end
  end.

(** The [if __name__ == "__main__"] block on [sys.argv]. *)
Definition script (w : World) (argv : list string) : Outcome :=
  if negb (Nat.eqb (List.length argv) 4)
  then {| trace := usage; exit_status := 1 |}
  else main w (nth 1 argv EmptyString) (nth 2 argv EmptyString)
         (nth 3 argv EmptyString).

Definition is_file_io (ev : IOEvent) : bool :=
  match ev with
  | OpenRead _ | OpenWrite _ | WriteTo _ _ => true
  | Print _ | LogLine _ => false
  end.

(** ** Quantities the properties are stated with *)

(** The key under which a tag record is stored. *)
Definition tag_key (r : TagRecord.t) : Key :=
  (TagRecord.dstPort r, TagRecord.protocol r).

(** The sum of the per-key counters. *)
Definition sum_counts (tbl : TagTable) : Z :=
  fold_right (fun entry acc => snd (snd entry) + acc) 0 tbl.

(** How many of the flow records [rs] have the join key [k]. *)
Definition hits (k : Key) (rs : list FlowLogRecordV2.t) : Z :=
  Z.of_nat (List.length (filter (fun r => key_eqb (flow_key r) k) rs)).

(** The sum of the counters of the entries that carry the tag [t]. *)
Definition tag_total (t : string) (tbl : TagTable) : Z :=
  fold_right
    (fun entry acc =>
       if String.eqb (TagRecord.tag (fst (snd entry))) t
       then snd (snd entry) + acc else acc)
    0 tbl.

(** The names a flow record's protocol can take in a join key. *)
Definition protocol_names : list string :=
  ["icmp"; "ipv4"; "tcp"; "udp"; "ipv6"].

(** The record that [genRecord] yields for one list of fields, if any. *)
Definition accepted {R : Type} (recordCls : RecordCls R) (parts : list string)
  : option R :=
  match fst (fst (genRecord_step recordCls parts 0 0)) with
  | Yield r => Some r
  | Log _ => None
  end.

(** The fields of the data lines of a file, as [genFields] yields them. *)
Definition data_fields (f : File) (lineLambda : string -> string)
  : list (list string) :=
  map (fun line => PyStr.split ","%char (lineLambda line)) (tl f).

Definition is_warning (e : LogEntry) : bool :=
  match fst e with WARNING => true | INFO => false end.

Definition is_invalid_record (e : LogEntry) : bool :=
  match e with
  | (INFO, SkippingInvalidRecord _) => true
  | _ => false
  end.

Definition wrong_count {R : Type} (recordCls : RecordCls R)
  (parts : list string) : bool :=
  negb (Nat.eqb (List.length parts) (List.length (cls_annotations recordCls))).

(** [sys.argv[1:]] *)
Definition positional (argv : list string) : list string := tl argv.

(** The records [genRecord] yields for a list of field lists. *)
Definition records_of {R : Type} (recordCls : RecordCls R)
  (fields : list (list string)) : list R :=
  flat_map
    (fun parts =>
       match accepted recordCls parts with Some r => [r] | None => [] end)
    fields.

(** The effect of one tag record on the table. *)
Definition store (tbl : TagTable) (r : TagRecord.t) : TagTable :=
  dict_set key_eqb (tag_key r) (r, 0) tbl.

(** The effect of one flow record on the table and the untagged counter. *)
Definition tally (acc : TagTable * Z) (r : FlowLogRecordV2.t) : TagTable * Z :=
  if dict_mem key_eqb (flow_key r) (fst acc)
  then (bump (flow_key r) (fst acc), snd acc)
  else (fst acc, snd acc + 1).

(** The log entry of the second loop for one flow record. *)
Definition flow_seen (r : FlowLogRecordV2.t) : LogEntry :=
  (INFO, FlowSeen (FlowLogRecordV2.dstPort r)
           (IANAProtocolNum_value (FlowLogRecordV2.protocol r))).

(** What the second loop logs: the entries of the parser, and one entry
    per record. *)
Fixpoint flow_trace (evs : list (Event FlowLogRecordV2.t)) : list LogEntry :=
  match evs with
  | [] => []
  | Yield r :: rest => flow_seen r :: flow_trace rest
  | Log e :: rest => e :: flow_trace rest
  end.

(** Every counter of the table is zero. *)
Definition all_zero (tbl : TagTable) : Prop :=
  Forall (fun entry => snd (snd entry) = 0) tbl.

(** An entry is untouched, or its protocol is one a flow record can have. *)
Definition reachable_or_zero (entry : Key * (TagRecord.t * Z)) : Prop :=
  snd (snd entry) = 0 \/ In (snd (fst entry)) protocol_names.

(** The log entry that [genRecord] emits for one list of fields, if any. *)
Definition line_log {R : Type} (recordCls : RecordCls R) (parts : list string)
  : list LogEntry :=
  match fst (fst (genRecord_step recordCls parts 0 0)) with
  | Log e => [e]
  | Yield _ => []
  end.

(** The log of the parser between the header entry and the summary. *)
Definition body_log {R : Type} (recordCls : RecordCls R)
  (fields : list (list string)) : list LogEntry :=
  flat_map (line_log recordCls) fields.

(** A string that [str.lower] leaves as it is. *)
Definition lowered (s : string) : Prop := PyStr.lower s = s.

(** The line of the second section for one entry of the table. *)
Definition entry_line (entry : Key * (TagRecord.t * Z)) : string :=
  PyStr.str_of_int (fst (fst entry)) ++ "," ++ snd (fst entry) ++ ","
    ++ PyStr.str_of_int (snd (snd entry)) ++ PyStr.nl.

(** The per-tag sums, accumulated over the entries themselves. *)
Definition tagCounts_step (tagCounts : list (string * Z))
  (entry : Key * (TagRecord.t * Z)) : list (string * Z) :=
  tagCounts_add (TagRecord.tag (fst (snd entry))) (snd (snd entry)) tagCounts.

(** The count held for a tag, 0 when the tag is absent. *)
Definition count_of (t : string) (tagCounts : list (string * Z)) : Z :=
  match dict_get String.eqb t tagCounts with Some c => c | None => 0 end.

Definition has_tag (t : string) (tbl : TagTable) : bool :=
  existsb (fun entry => String.eqb (TagRecord.tag (fst (snd entry))) t) tbl.

(** The character before the final one. *)
Fixpoint before_last (s : string) : option ascii :=
  match s with
  | String c (String _ EmptyString) => Some c
  | String _ s' => before_last s'
  | EmptyString => None
  end.

(** Every entry of the table, whatever its counter, satisfies [P]. *)
Definition entries_all (P : Key -> TagRecord.t -> Prop) (tbl : TagTable) : Prop :=
  forall k t c, In (k, (t, c)) tbl -> P k t.

(** ** Sample inputs *)

Definition sample_state : State :=
  {| tagMappings := [((25, "tcp"), (TagRecord.mk 25 "tcp" "email", 0))];
     untaggedCounter := 0;
     io := [] |}.

Definition sample_record : FlowLogRecordV2.t :=
  FlowLogRecordV2.mk 2 "acct" "eni-1" "10.0.0.1" "10.0.0.2" 49152 25 TCP
    10 840 1 2 Action_ACCEPT LogStatus_ACCEPT.

Definition sample_tag_file : File :=
  ["dstport,protocol,tag"; "25,tcp,email"; "443,tcp,web"; "25,tcp,mail";
   "68,dhcp,boot"].

Definition sample_flow_file : File :=
  ["version,account,interface,src,dst,srcport,dstport,protocol,packets,bytes,start,end,action,status";
   "2,acct,eni-1,10.0.0.1,10.0.0.2,49152,25,6,10,840,1,2,ACCEPT,OK";
   "2,acct,eni-1,10.0.0.1,10.0.0.2,49152,443,6,10,840,1,2,ACCEPT,OK";
   "2,acct,eni-1,10.0.0.1,10.0.0.2,49152,80,6,10,840,1,2,ACCEPT,OK"].

Definition short_tag_file : File := ["dstport,protocol,tag"; "25,tcp"].

Definition sample_world : World :=
  {| read_file := fun path =>
       if String.eqb path "tags.csv" then Some sample_tag_file
       else if String.eqb path "flows.csv" then Some sample_flow_file
       else None;
     can_write := fun _ => true |}.

(** ** Quantities for the properties of the parts *)

(** How often the character [c] occurs in [s]. *)
Fixpoint count_char (c : ascii) (s : string) : nat :=
  match s with
  | EmptyString => O
  | String x s' => if Ascii.eqb x c then S (count_char c s') else count_char c s'
  end.

(** Every character of [s] satisfies [p]. *)
Fixpoint all_chars (p : ascii -> bool) (s : string) : bool :=
  match s with
  | EmptyString => true
  | String x s' => p x && all_chars p s'
  end.






(** The keys of [ks] in the order of their first occurrence, those of
    [seen] left out. *)
Fixpoint first_seen (ks seen : list Key) : list Key :=
  match ks with
  | [] => []
  | k :: ks' =>
      if existsb (key_eqb k) seen then first_seen ks' seen
      else k :: first_seen ks' (seen ++ [k])
  end.

(** How many of the flow records [rs] have a key that [tbl] lacks. *)
Definition misses (tbl : TagTable) (rs : list FlowLogRecordV2.t) : Z :=
  Z.of_nat
    (List.length
       (filter (fun r => negb (dict_mem key_eqb (flow_key r) tbl)) rs)).

(** An entry with the hits of [rs] at its key added to its counter. *)
Definition add_hits (rs : list FlowLogRecordV2.t)
  (entry : Key * (TagRecord.t * Z)) : Key * (TagRecord.t * Z) :=
  (fst entry, (fst (snd entry), snd (snd entry) + hits (fst entry) rs)).

(** The sum of the per-tag counts. *)
Definition sum_values (tagCounts : list (string * Z)) : Z :=
  fold_right (fun item acc => snd item + acc) 0 tagCounts.

Definition is_flow_seen (e : LogEntry) : bool :=
  match e with
  | (_, FlowSeen _ _) => true
  | _ => false
  end.

(** ** Dictionaries: lookup after update *)

Open Scope list_scope.

Section DictFacts.
Context {K V : Type} (eqb : K -> K -> bool).
Hypothesis eqb_eq : forall a b, eqb a b = true <-> a = b.

Lemma eqb_refl_true (a : K) : eqb a a = true.
Proof. now apply eqb_eq. Qed.

Lemma eqb_neq_false (a b : K) : a <> b -> eqb a b = false.
Proof.
  intro Hne. destruct (eqb a b) eqn:E; [|reflexivity].
  apply eqb_eq in E. contradiction.
Qed.

Lemma dict_get_set_eq (k : K) (v : V) (d : list (K * V)) :
  dict_get eqb k (dict_set eqb k v d) = Some v.
Proof.
  induction d as [|[k' v'] d IH]; simpl.
  - now rewrite eqb_refl_true.
  - destruct (eqb k' k) eqn:E; simpl; rewrite E; auto.
Qed.

Lemma dict_get_set_ne (k k0 : K) (v : V) (d : list (K * V)) :
  k <> k0 -> dict_get eqb k0 (dict_set eqb k v d) = dict_get eqb k0 d.
Proof.
  intro Hne. induction d as [|[k' v'] d IH]; simpl.
  - now rewrite (eqb_neq_false k k0 Hne).
  - destruct (eqb k' k) eqn:E; simpl.
    + apply eqb_eq in E. subst k'. now rewrite (eqb_neq_false k k0 Hne).
    + destruct (eqb k' k0); auto.
Qed.

Lemma dict_get_In (k : K) (v : V) (d : list (K * V)) :
  dict_get eqb k d = Some v -> In (k, v) d.
Proof.
  induction d as [|[k' v'] d IH]; simpl; [discriminate|].
  destruct (eqb k' k) eqn:E.
  - apply eqb_eq in E. intros [= ->]. left. now subst.
  - intro H. right. auto.
Qed.

Lemma dict_get_None_keys (k : K) (d : list (K * V)) :
  dict_get eqb k d = None -> ~ In k (dict_keys d).
Proof.
  induction d as [|[k' v'] d IH]; simpl; [tauto|].
  destruct (eqb k' k) eqn:E; [discriminate|].
  intros H [Hk|Hk].
  - subst. rewrite eqb_refl_true in E. discriminate.
  - now apply IH.
Qed.

Lemma In_dict_get (k : K) (v : V) (d : list (K * V)) :
  NoDup (dict_keys d) -> In (k, v) d -> dict_get eqb k d = Some v.
Proof.
  induction d as [|[k' v'] d IH]; simpl; [tauto|].
  intros Hnd [Hin|Hin]; inversion Hnd as [|? ? Hnotin Hnd']; subst.
  - injection Hin as -> ->. now rewrite eqb_refl_true.
  - destruct (eqb k' k) eqn:E.
    + apply eqb_eq in E. subst k'. exfalso. apply Hnotin.
      change k with (fst (k, v)). now apply in_map.
    + auto.
Qed.

Lemma dict_keys_set_present (k : K) (v v0 : V) (d : list (K * V)) :
  dict_get eqb k d = Some v0 -> dict_keys (dict_set eqb k v d) = dict_keys d.
Proof.
  induction d as [|[k' v'] d IH]; simpl; [discriminate|].
  destruct (eqb k' k) eqn:E; simpl; [reflexivity|].
  intro H. f_equal. auto.
Qed.

Lemma dict_keys_set_absent (k : K) (v : V) (d : list (K * V)) :
  dict_get eqb k d = None ->
  dict_keys (dict_set eqb k v d) = (dict_keys d ++ [k])%list.
Proof.
  induction d as [|[k' v'] d IH]; simpl; [reflexivity|].
  destruct (eqb k' k) eqn:E; simpl; [discriminate|].
  intro H. f_equal. auto.
Qed.

Lemma dict_set_NoDup (k : K) (v : V) (d : list (K * V)) :
  NoDup (dict_keys d) -> NoDup (dict_keys (dict_set eqb k v d)).
Proof.
  intro Hnd. destruct (dict_get eqb k d) eqn:G.
  - now rewrite (dict_keys_set_present k v v0 d G).
  - rewrite (dict_keys_set_absent k v d G).
    apply NoDup_app; auto.
    + repeat constructor. simpl. tauto.
    + intros x Hx [Hk|[]]. subst x. now apply (dict_get_None_keys k d G).
Qed.

Lemma dict_set_In (k : K) (v : V) (d : list (K * V)) (e : K * V) :
  In e (dict_set eqb k v d) -> In e d \/ e = (k, v).
Proof.
  induction d as [|[k' v'] d IH]; simpl.
  - intros [<-|[]]. now right.
  - destruct (eqb k' k) eqn:E; simpl.
    + apply eqb_eq in E. subst k'. intros [<-|H]; auto.
    + intros [<-|H]; auto. destruct (IH H); auto.
Qed.

Lemma dict_mem_get (k : K) (d : list (K * V)) :
  dict_mem eqb k d = true <-> exists v, dict_get eqb k d = Some v.
Proof.
  unfold dict_mem. destruct (dict_get eqb k d).
  - split; eauto.
  - split; [discriminate|]. intros [v [=]].
Qed.

End DictFacts.

Lemma key_eqb_eq (a b : Key) : key_eqb a b = true <-> a = b.
Proof.
  destruct a as [p s], b as [q t]. unfold key_eqb. simpl.
  rewrite andb_true_iff, Z.eqb_eq, String.eqb_eq.
  split; [intros [-> ->]; reflexivity | intros [= -> ->]; auto].
Qed.

(** ** The parser: what is yielded and what is counted *)

Section Parser.
Context {R : Type} (recordCls : RecordCls R).

Lemma genRecord_step_event (parts : list string) (c s : Z) :
  fst (fst (genRecord_step recordCls parts c s))
  = fst (fst (genRecord_step recordCls parts 0 0)).
Proof.
  unfold genRecord_step.
  destruct (negb _); [reflexivity|].
  destruct (coerce_all _ _); [reflexivity|].
  destruct (cls_init _ _); reflexivity.
Qed.

(** The three outcomes of one line, with the counters. *)
Lemma genRecord_step_cases (parts : list string) (c s : Z) :
  (wrong_count recordCls parts = true /\
   genRecord_step recordCls parts c s
   = (Log (INFO, SkippingInvalidRecord (PyStr.join "," parts)), c, s))
  \/ (wrong_count recordCls parts = false /\
      exists e,
        genRecord_step recordCls parts c s
        = (Log (WARNING, SkippingLine (PyStr.join "," parts) e), c, s + 1))
  \/ (wrong_count recordCls parts = false /\
      exists r, genRecord_step recordCls parts c s = (Yield r, c + 1, s)).
Proof.
  unfold genRecord_step, wrong_count.
  destruct (negb _); [left; auto|right].
  destruct (coerce_all _ _); [left; eauto|].
  destruct (cls_init _ _); [right; eauto|left; eauto].
Qed.

Lemma yielded_loop (fields : list (list string)) (c s : Z) :
  yielded (genRecord_loop recordCls (map Yield fields) c s)
  = records_of recordCls fields.
Proof.
  revert c s. induction fields as [|parts fields IH]; intros c s; simpl.
  - reflexivity.
  - unfold accepted. rewrite <- (genRecord_step_event parts c s).
    destruct (genRecord_step recordCls parts c s) as [[ev c'] s'].
    simpl. destruct ev; simpl; now rewrite IH.
Qed.

Lemma yielded_genRecord (f : File) (lineLambda : string -> string) :
  yielded (genRecord f recordCls lineLambda)
  = records_of recordCls (data_fields f lineLambda).
Proof.
  unfold genRecord, genFields, data_fields. simpl.
  rewrite <- (yielded_loop _ 0 0). now rewrite map_map.
Qed.

End Parser.

(** ** The two loops of [main] as folds over the yielded records *)

Lemma build_fold (evs : list (Event TagRecord.t)) (st : State) :
  tagMappings (fold_left tag_step evs st)
  = fold_left store (yielded evs) (tagMappings st)
  /\ untaggedCounter (fold_left tag_step evs st) = untaggedCounter st
  /\ io (fold_left tag_step evs st)
     = (io st ++ map LogLine (logged evs))%list.
Proof.
  revert st. induction evs as [|[r|e] evs IH]; intro st;
    cbn [fold_left yielded logged map].
  - now rewrite app_nil_r.
  - destruct (IH (tag_step st (Yield r))) as (H1 & H2 & H3).
    rewrite H1, H2, H3. auto.
  - destruct (IH (tag_step st (Log e))) as (H1 & H2 & H3).
    rewrite H1, H2, H3. simpl. now rewrite <- app_assoc.
Qed.

Lemma aggregate_fold (evs : list (Event FlowLogRecordV2.t)) (st : State) :
  (tagMappings (fold_left flow_step evs st),
   untaggedCounter (fold_left flow_step evs st))
  = fold_left tally (yielded evs) (tagMappings st, untaggedCounter st)
  /\ io (fold_left flow_step evs st)
     = (io st ++ map LogLine (flow_trace evs))%list.
Proof.
  revert st. induction evs as [|[r|e] evs IH]; intro st;
    cbn [fold_left yielded flow_trace map].
  - now rewrite app_nil_r.
  - destruct (IH (flow_step st (Yield r))) as (H1 & H2).
    rewrite H1, H2. unfold tally, flow_step. simpl.
    destruct (dict_mem key_eqb (flow_key r) (tagMappings st)); simpl;
      now rewrite <- app_assoc.
  - destruct (IH (flow_step st (Log e))) as (H1 & H2).
    rewrite H1, H2. simpl. now rewrite <- app_assoc.
Qed.

(** ** Counters *)

Lemma sum_counts_bump (k : Key) (tbl : TagTable) :
  dict_mem key_eqb k tbl = true ->
  sum_counts (bump k tbl) = sum_counts tbl + 1.
Proof.
  unfold bump, dict_mem.
  destruct (dict_get key_eqb k tbl) as [[r c]|] eqn:G; [intros _|discriminate].
  induction tbl as [|[k' [r' c']] tbl IH]; simpl in *; [discriminate|].
  destruct (key_eqb k' k) eqn:E; simpl.
  - injection G as -> ->. lia.
  - rewrite (IH G). lia.
Qed.

Lemma tally_total (acc : TagTable * Z) (r : FlowLogRecordV2.t) :
  sum_counts (fst (tally acc r)) + snd (tally acc r)
  = sum_counts (fst acc) + snd acc + 1.
Proof.
  unfold tally. destruct (dict_mem key_eqb (flow_key r) (fst acc)) eqn:M; simpl.
  - rewrite (sum_counts_bump _ _ M). lia.
  - lia.
Qed.

Lemma tally_all_total (rs : list FlowLogRecordV2.t) (acc : TagTable * Z) :
  sum_counts (fst (fold_left tally rs acc)) + snd (fold_left tally rs acc)
  = sum_counts (fst acc) + snd acc + Z.of_nat (List.length rs).
Proof.
  revert acc. induction rs as [|r rs IH]; intro acc.
  - simpl. lia.
  - cbn [fold_left List.length]. rewrite IH, tally_total. lia.
Qed.

Lemma store_all_zero (tbl : TagTable) (r : TagRecord.t) :
  all_zero tbl -> all_zero (store tbl r).
Proof.
  unfold all_zero, store. rewrite !Forall_forall. intros H e He.
  destruct (dict_set_In key_eqb key_eqb_eq _ _ _ _ He) as [Hin| ->]; auto.
Qed.

Lemma build_all_zero (rs : list TagRecord.t) (tbl : TagTable) :
  all_zero tbl -> all_zero (fold_left store rs tbl).
Proof.
  revert tbl. induction rs as [|r rs IH]; intros tbl H; simpl; auto.
  apply IH. now apply store_all_zero.
Qed.

Lemma all_zero_sum (tbl : TagTable) : all_zero tbl -> sum_counts tbl = 0.
Proof.
  induction 1 as [|e tbl He _ IH]; simpl; [reflexivity|]. lia.
Qed.

Lemma run_unfold (flowFile tagFile : File) :
  (tagMappings (run flowFile tagFile), untaggedCounter (run flowFile tagFile))
  = fold_left tally (yielded (flow_events flowFile))
      (fold_left store (yielded (tag_events tagFile)) [], 0).
Proof.
  unfold run, aggregate, build.
  destruct (aggregate_fold (flow_events flowFile)
              (fold_left tag_step (tag_events tagFile) initial)) as [H _].
  rewrite H.
  destruct (build_fold (tag_events tagFile) initial) as (H1 & H2 & _).
  now rewrite H1, H2.
Qed.

(** ** Lookup in the table across the aggregation pass *)

Lemma hits_cons (k : Key) (r : FlowLogRecordV2.t) (rs : list FlowLogRecordV2.t) :
  hits k (r :: rs) = (if key_eqb (flow_key r) k then 1 else 0) + hits k rs.
Proof.
  unfold hits. cbn [filter].
  destruct (key_eqb (flow_key r) k); cbn [List.length]; lia.
Qed.

Lemma tally_get (acc : TagTable * Z) (r : FlowLogRecordV2.t) (k : Key) :
  dict_get key_eqb k (fst (tally acc r))
  = match dict_get key_eqb k (fst acc) with
    | Some (t, c) => Some (t, c + (if key_eqb (flow_key r) k then 1 else 0))
    | None => None
    end.
Proof.
  unfold tally, dict_mem, bump.
  destruct (dict_get key_eqb (flow_key r) (fst acc)) as [[t0 c0]|] eqn:G;
    cbn [fst]; destruct (key_eqb (flow_key r) k) eqn:E.
  - apply key_eqb_eq in E. subst k.
    rewrite (dict_get_set_eq key_eqb key_eqb_eq), G. reflexivity.
  - assert (Hne : flow_key r <> k)
      by (intro Heq; apply key_eqb_eq in Heq; congruence).
    rewrite (dict_get_set_ne key_eqb key_eqb_eq _ _ _ _ Hne).
    destruct (dict_get key_eqb k (fst acc)) as [[t c]|]; [|reflexivity].
    now rewrite Z.add_0_r.
  - apply key_eqb_eq in E. subst k. now rewrite G.
  - destruct (dict_get key_eqb k (fst acc)) as [[t c]|]; [|reflexivity].
    now rewrite Z.add_0_r.
Qed.

Lemma tally_all_get (rs : list FlowLogRecordV2.t) (acc : TagTable * Z) (k : Key) :
  dict_get key_eqb k (fst (fold_left tally rs acc))
  = match dict_get key_eqb k (fst acc) with
    | Some (t, c) => Some (t, c + hits k rs)
    | None => None
    end.
Proof.
  revert acc. induction rs as [|r rs IH]; intro acc; cbn [fold_left].
  - destruct (dict_get key_eqb k (fst acc)) as [[t c]|]; [|reflexivity].
    unfold hits. simpl. now rewrite Z.add_0_r.
  - rewrite IH, tally_get, hits_cons.
    destruct (dict_get key_eqb k (fst acc)) as [[t c]|]; [|reflexivity].
    now rewrite Z.add_assoc.
Qed.

Lemma tally_keys (acc : TagTable * Z) (r : FlowLogRecordV2.t) :
  dict_keys (fst (tally acc r)) = dict_keys (fst acc).
Proof.
  unfold tally, dict_mem, bump.
  destruct (dict_get key_eqb (flow_key r) (fst acc)) as [[t0 c0]|] eqn:G;
    cbn [fst]; [|reflexivity].
  now apply (dict_keys_set_present key_eqb _ _ (t0, c0)).
Qed.

Lemma tally_all_keys (rs : list FlowLogRecordV2.t) (acc : TagTable * Z) :
  dict_keys (fst (fold_left tally rs acc)) = dict_keys (fst acc).
Proof.
  revert acc. induction rs as [|r rs IH]; intro acc; cbn [fold_left]; auto.
  now rewrite IH, tally_keys.
Qed.

Lemma store_all_NoDup (rs : list TagRecord.t) (tbl : TagTable) :
  NoDup (dict_keys tbl) -> NoDup (dict_keys (fold_left store rs tbl)).
Proof.
  revert tbl. induction rs as [|r rs IH]; intros tbl H; cbn [fold_left]; auto.
  apply IH. now apply (dict_set_NoDup key_eqb key_eqb_eq).
Qed.

Lemma store_all_get_other (rs : list TagRecord.t) (tbl : TagTable) (k : Key) :
  (forall r, In r rs -> tag_key r <> k) ->
  dict_get key_eqb k (fold_left store rs tbl) = dict_get key_eqb k tbl.
Proof.
  revert tbl. induction rs as [|r rs IH]; intros tbl H; cbn [fold_left]; auto.
  rewrite IH by (intros r' Hr'; apply H; now right).
  apply (dict_get_set_ne key_eqb key_eqb_eq). apply H. now left.
Qed.

Lemma run_NoDup (flowFile tagFile : File) :
  NoDup (dict_keys (tagMappings (run flowFile tagFile))).
Proof.
  pose proof (run_unfold flowFile tagFile) as H.
  apply (f_equal fst) in H. cbn [fst] in H. rewrite H, tally_all_keys.
  cbn [fst]. apply store_all_NoDup. constructor.
Qed.

(** ** The join key *)

Lemma protocolStr_of_name (p : IANAProtocolNum) :
  protocolStr_of p = PyStr.lower (IANAProtocolNum_name p).
Proof. destruct p; reflexivity. Qed.

Lemma flow_key_names (r : FlowLogRecordV2.t) :
  In (snd (flow_key r)) protocol_names.
Proof.
  unfold flow_key. cbn [snd].
  destruct (FlowLogRecordV2.protocol r); vm_compute; tauto.
Qed.

Lemma flow_step_tally (st : State) (r : FlowLogRecordV2.t) :
  (tagMappings (flow_step st (Yield r)), untaggedCounter (flow_step st (Yield r)))
  = tally (tagMappings st, untaggedCounter st) r.
Proof.
  unfold flow_step, tally. cbn [fst snd emit do_io tagMappings untaggedCounter].
  destruct (dict_mem key_eqb (flow_key r) (tagMappings st)); reflexivity.
Qed.

(** C1. At the end of the aggregation pass the per-key counters of the tag
    table and the untagged counter add up to the number of flow records
    that the parser yielded. Every flow record adds exactly 1 to exactly
    one counter: to the untagged counter with the table left as it is, or
    to the counter of the entry at its key with every other entry and the
    untagged counter left as they are. *)
Theorem C1_round_trip_counting (flowFile tagFile : File) :
  sum_counts (tagMappings (run flowFile tagFile))
  + untaggedCounter (run flowFile tagFile)
  = Z.of_nat (List.length (yielded (flow_events flowFile)))
  /\ forall (st : State) (r : FlowLogRecordV2.t),
       sum_counts (tagMappings (flow_step st (Yield r)))
       + untaggedCounter (flow_step st (Yield r))
       = sum_counts (tagMappings st) + untaggedCounter st + 1
       /\ ((tagMappings (flow_step st (Yield r)) = tagMappings st
            /\ untaggedCounter (flow_step st (Yield r))
               = untaggedCounter st + 1)
           \/ (untaggedCounter (flow_step st (Yield r)) = untaggedCounter st
               /\ sum_counts (tagMappings (flow_step st (Yield r)))
                  = sum_counts (tagMappings st) + 1
               /\ exists t c,
                    dict_get key_eqb (flow_key r) (tagMappings st) = Some (t, c)
                    /\ dict_get key_eqb (flow_key r)
                         (tagMappings (flow_step st (Yield r)))
                       = Some (t, c + 1)
                    /\ forall k, k <> flow_key r ->
                         dict_get key_eqb k
                           (tagMappings (flow_step st (Yield r)))
                         = dict_get key_eqb k (tagMappings st))).
Proof.
  split.
  - pose proof (run_unfold flowFile tagFile) as H.
    pose proof (tally_all_total (yielded (flow_events flowFile))
                  (fold_left store (yielded (tag_events tagFile)) [], 0)) as T.
    rewrite <- H in T. cbn [fst snd] in T. rewrite T.
    rewrite (all_zero_sum _ (build_all_zero _ [] (Forall_nil _))). lia.
  - intros st r.
    pose proof (flow_step_tally st r) as S.
    assert (S1 := f_equal fst S). assert (S2 := f_equal snd S).
    cbn [fst snd] in S1, S2.
    pose proof (tally_total (tagMappings st, untaggedCounter st) r) as T.
    rewrite <- S1, <- S2 in T. cbn [fst snd] in T.
    split; [exact T|].
    destruct (dict_get key_eqb (flow_key r) (tagMappings st)) as [[t c]|] eqn:G.
    + right.
      assert (U : untaggedCounter (flow_step st (Yield r)) = untaggedCounter st).
      { rewrite S2. unfold tally, dict_mem. cbn [fst snd]. now rewrite G. }
      split; [exact U|]. split; [lia|].
      exists t, c. split; [reflexivity|]. split.
      * rewrite S1, tally_get. cbn [fst]. rewrite G.
        now rewrite (proj2 (key_eqb_eq _ _) eq_refl).
      * intros k Hk. rewrite S1, tally_get. cbn [fst].
        destruct (dict_get key_eqb k (tagMappings st)) as [[t' c']|];
          [|reflexivity].
        destruct (key_eqb (flow_key r) k) eqn:E.
        -- apply key_eqb_eq in E. congruence.
        -- now rewrite Z.add_0_r.
    + left. split.
      * rewrite S1. unfold tally, dict_mem. cbn [fst snd]. now rewrite G.
      * rewrite S2. unfold tally, dict_mem. cbn [fst snd]. now rewrite G.
Qed.

Lemma C1_round_trip_counting_witness :
  (443, "tcp") <> flow_key sample_record
  /\ dict_get key_eqb (443, "tcp")
       (tagMappings (flow_step sample_state (Yield sample_record)))
     = dict_get key_eqb (443, "tcp") (tagMappings sample_state).
Proof.
  assert (Hne : (443, "tcp") <> flow_key sample_record) by discriminate.
  split; [exact Hne|].
  destruct (proj2 (proj2 (C1_round_trip_counting [] [])
                     sample_state sample_record))
    as [[Htbl _]|(_ & _ & t & c & _ & _ & Hk)].
  - now rewrite Htbl.
  - exact (Hk (443, "tcp") Hne).
Defined.

(** C2. The join key of a flow record is its destination port with the
    lower-case name of its protocol (code 6 gives the string tcp); when the
    key is in the table, that entry's counter goes up by 1 and nothing else
    changes, otherwise the untagged counter goes up by 1 and the table is
    left alone.  A mapping written with protocol TCP is met by a flow
    record with protocol code 6. *)
Theorem C2_join_and_increment (st : State) (r : FlowLogRecordV2.t) :
  flow_key r
  = (FlowLogRecordV2.dstPort r,
     PyStr.lower (IANAProtocolNum_name (FlowLogRecordV2.protocol r)))
  /\ IANAProtocolNum_call "6" = Some TCP
  /\ protocolStr_of TCP = "tcp"
  /\ (forall t c,
        dict_get key_eqb (flow_key r) (tagMappings st) = Some (t, c) ->
        dict_get key_eqb (flow_key r) (tagMappings (flow_step st (Yield r)))
        = Some (t, c + 1)
        /\ (forall k, k <> flow_key r ->
              dict_get key_eqb k (tagMappings (flow_step st (Yield r)))
              = dict_get key_eqb k (tagMappings st))
        /\ dict_keys (tagMappings (flow_step st (Yield r)))
           = dict_keys (tagMappings st)
        /\ untaggedCounter (flow_step st (Yield r)) = untaggedCounter st)
  /\ (dict_get key_eqb (flow_key r) (tagMappings st) = None ->
      tagMappings (flow_step st (Yield r)) = tagMappings st
      /\ untaggedCounter (flow_step st (Yield r)) = untaggedCounter st + 1)
  /\ (forall tagHeader flowHeader,
        let final :=
          run [flowHeader; "2,acct,eni-1,10.0.0.1,10.0.0.2,49152,25,6,10,840,1,2,ACCEPT,OK"]
              [tagHeader; "25,TCP,email"] in
        tagMappings final = [((25, "tcp"), (TagRecord.mk 25 "tcp" "email", 1))]
        /\ untaggedCounter final = 0).
Proof.
  pose proof (flow_step_tally st r) as S.
  assert (S1 := f_equal fst S). assert (S2 := f_equal snd S).
  cbn [fst snd] in S1, S2.
  repeat split.
  - unfold flow_key. now rewrite protocolStr_of_name.
  - rewrite S1, tally_get. cbn [fst]. rewrite H.
    now rewrite (proj2 (key_eqb_eq _ _) eq_refl).
  - intros k Hk. rewrite S1, tally_get. cbn [fst].
    destruct (dict_get key_eqb k (tagMappings st)) as [[t' c']|]; [|reflexivity].
    destruct (key_eqb (flow_key r) k) eqn:E.
    + apply key_eqb_eq in E. congruence.
    + now rewrite Z.add_0_r.
  - now rewrite S1, tally_keys.
  - rewrite S2. unfold tally, dict_mem. cbn [fst snd]. now rewrite H.
  - rewrite S1. unfold tally, dict_mem. cbn [fst snd]. now rewrite H.
  - rewrite S2. unfold tally, dict_mem. cbn [fst snd]. now rewrite H.
Qed.

Lemma C2_join_and_increment_witness :
  dict_get key_eqb (flow_key sample_record) (tagMappings sample_state)
  = Some (TagRecord.mk 25 "tcp" "email", 0)
  /\ dict_get key_eqb (flow_key sample_record)
       (tagMappings (flow_step sample_state (Yield sample_record)))
     = Some (TagRecord.mk 25 "tcp" "email", 0 + 1).
Proof.
  split; [reflexivity|].
  apply (proj1 (proj1 (proj2 (proj2 (proj2
           (C2_join_and_increment sample_state sample_record))))
           (TagRecord.mk 25 "tcp" "email") 0 eq_refl)).
Defined.

(** ** Entries that no flow record can reach *)

Lemma tally_reachable (acc : TagTable * Z) (r : FlowLogRecordV2.t) :
  Forall reachable_or_zero (fst acc) ->
  Forall reachable_or_zero (fst (tally acc r)).
Proof.
  unfold tally, bump.
  destruct (dict_mem key_eqb (flow_key r) (fst acc)); cbn [fst]; auto.
  destruct (dict_get key_eqb (flow_key r) (fst acc)) as [[t c]|]; auto.
  rewrite !Forall_forall. intros H e He.
  destruct (dict_set_In key_eqb key_eqb_eq _ _ _ _ He) as [Hin| ->]; auto.
  right. apply flow_key_names.
Qed.

Lemma tally_all_reachable (rs : list FlowLogRecordV2.t) (acc : TagTable * Z) :
  Forall reachable_or_zero (fst acc) ->
  Forall reachable_or_zero (fst (fold_left tally rs acc)).
Proof.
  revert acc. induction rs as [|r rs IH]; intros acc H; cbn [fold_left]; auto.
  apply IH. now apply tally_reachable.
Qed.

(** C10. The protocol component of a flow record's join key is one of the
    five names icmp, ipv4, tcp, udp, ipv6, each of which occurs; so an
    entry of the table whose protocol component is none of them still has
    counter 0 when the aggregation pass ends. *)
Theorem C10_unreachable_entries_stay_zero :
  (forall r : FlowLogRecordV2.t, In (snd (flow_key r)) protocol_names)
  /\ map protocolStr_of [ICMP; IPv4; TCP; UDP; IPv6] = protocol_names
  /\ (forall (flowFile tagFile : File) (k : Key) (t : TagRecord.t) (c : Z),
        In (k, (t, c)) (tagMappings (run flowFile tagFile)) ->
        ~ In (snd k) protocol_names ->
        c = 0).
Proof.
  split; [exact flow_key_names|]. split; [reflexivity|].
  intros flowFile tagFile k t c Hin Hout.
  pose proof (run_unfold flowFile tagFile) as H.
  apply (f_equal fst) in H. cbn [fst] in H. rewrite H in Hin.
  assert (Hall : Forall reachable_or_zero
                   (fst (fold_left tally (yielded (flow_events flowFile))
                           (fold_left store (yielded (tag_events tagFile)) [], 0)))).
  { apply tally_all_reachable. cbn [fst].
    pose proof (build_all_zero (yielded (tag_events tagFile)) [] (Forall_nil _)) as Z0.
    unfold all_zero in Z0. rewrite Forall_forall in *.
    intros e He. left. now apply Z0. }
  rewrite Forall_forall in Hall.
  destruct (Hall _ Hin) as [Hz|Hn]; [exact Hz|contradiction].
Qed.

Lemma C10_unreachable_entries_stay_zero_witness :
  In ((68, "dhcp"), (TagRecord.mk 68 "dhcp" "boot", 0))
    (tagMappings (run sample_flow_file sample_tag_file))
  /\ ~ In "dhcp" protocol_names
  /\ 0 = 0.
Proof.
  assert (Hin : In ((68, "dhcp"), (TagRecord.mk 68 "dhcp" "boot", 0))
                  (tagMappings (run sample_flow_file sample_tag_file)))
    by (vm_compute; tauto).
  assert (Hout : ~ In (snd (68, "dhcp")) protocol_names).
  { cbn. intros [H|[H|[H|[H|[H|[]]]]]]; discriminate H. }
  split; [exact Hin|]. split; [exact Hout|].
  exact (proj2 (proj2 C10_unreachable_entries_stay_zero)
           sample_flow_file sample_tag_file (68, "dhcp")
           (TagRecord.mk 68 "dhcp" "boot") 0 Hin Hout).
Defined.

(** ** Duplicate keys in the mapping file *)

(** C4. When two mapping lines carry the same key and different tags, the
    table built from the file holds at that key the record of the later
    line alone, with counter 0; nothing but the parser's own entries is
    logged; and in the aggregation pass that entry's counter is the number
    of flow records with that key, every other entry counting the records
    of its own key. *)
Theorem C4_last_write_wins (tagFile : File) (l1 l2 l3 : list TagRecord.t)
  (r1 r2 : TagRecord.t) :
  yielded (tag_events tagFile) = (l1 ++ r1 :: l2 ++ r2 :: l3)%list ->
  tag_key r1 = tag_key r2 ->
  TagRecord.tag r1 <> TagRecord.tag r2 ->
  (forall r, In r l3 -> tag_key r <> tag_key r2) ->
  dict_get key_eqb (tag_key r2) (tagMappings (build initial tagFile))
  = Some (r2, 0)
  /\ (forall t c,
        In (tag_key r1, (t, c)) (tagMappings (build initial tagFile)) ->
        t = r2 /\ t <> r1 /\ c = 0)
  /\ NoDup (dict_keys (tagMappings (build initial tagFile)))
  /\ io (build initial tagFile) = map LogLine (logged (tag_events tagFile))
  /\ (forall flowFile : File,
        dict_get key_eqb (tag_key r2) (tagMappings (run flowFile tagFile))
        = Some (r2, hits (tag_key r2) (yielded (flow_events flowFile)))
        /\ (forall k t c,
              dict_get key_eqb k (tagMappings (build initial tagFile))
              = Some (t, c) ->
              dict_get key_eqb k (tagMappings (run flowFile tagFile))
              = Some (t, hits k (yielded (flow_events flowFile))))
        /\ dict_keys (tagMappings (run flowFile tagFile))
           = dict_keys (tagMappings (build initial tagFile))).
Proof.
  intros Hy Hk Htag Hl3.
  destruct (build_fold (tag_events tagFile) initial) as (B1 & _ & B3).
  fold (build initial tagFile) in B1, B3. cbn [initial tagMappings io] in B1, B3.
  assert (Hnd : NoDup (dict_keys (tagMappings (build initial tagFile))))
    by (rewrite B1; apply store_all_NoDup; constructor).
  assert (Hget : dict_get key_eqb (tag_key r2)
                   (tagMappings (build initial tagFile)) = Some (r2, 0)).
  { rewrite B1, Hy.
    replace (l1 ++ r1 :: l2 ++ r2 :: l3)%list
      with ((l1 ++ r1 :: l2) ++ r2 :: l3)%list
      by (rewrite <- app_assoc; reflexivity).
    rewrite fold_left_app. cbn [fold_left].
    rewrite (store_all_get_other l3 _ _ Hl3).
    apply (dict_get_set_eq key_eqb key_eqb_eq). }
  assert (Hzero : all_zero (tagMappings (build initial tagFile)))
    by (rewrite B1; apply build_all_zero; constructor).
  assert (Hrun : forall flowFile,
             tagMappings (run flowFile tagFile)
             = fst (fold_left tally (yielded (flow_events flowFile))
                      (tagMappings (build initial tagFile), 0))).
  { intro flowFile. pose proof (run_unfold flowFile tagFile) as H.
    apply (f_equal fst) in H. cbn [fst] in H. now rewrite H, B1. }
  split; [exact Hget|]. split; [|split; [exact Hnd|split; [exact B3|]]].
  - intros t c Hin. rewrite Hk in Hin.
    pose proof (In_dict_get key_eqb key_eqb_eq _ _ _ Hnd Hin) as G.
    rewrite Hget in G. injection G as <- <-.
    repeat split. intro Heq. apply Htag. now rewrite Heq.
  - intro flowFile. rewrite Hrun. split; [|split].
    + rewrite tally_all_get. cbn [fst]. now rewrite Hget.
    + intros k t c G. rewrite tally_all_get. cbn [fst]. rewrite G.
      unfold all_zero in Hzero. rewrite Forall_forall in Hzero.
      pose proof (Hzero _ (dict_get_In key_eqb key_eqb_eq _ _ _ G)) as Hc.
      cbn [snd] in Hc. now rewrite Hc.
    + now rewrite tally_all_keys.
Qed.

Lemma C4_last_write_wins_witness :
  dict_get key_eqb (25, "tcp") (tagMappings (build initial sample_tag_file))
  = Some (TagRecord.mk 25 "tcp" "mail", 0)
  /\ dict_get key_eqb (25, "tcp")
       (tagMappings (run sample_flow_file sample_tag_file))
     = Some (TagRecord.mk 25 "tcp" "mail",
             hits (25, "tcp") (yielded (flow_events sample_flow_file))).
Proof.
  assert (Hl3 : forall r, In r [TagRecord.mk 68 "dhcp" "boot"] ->
                          tag_key r <> tag_key (TagRecord.mk 25 "tcp" "mail")).
  { intros r [<-|[]]. discriminate. }
  assert (Htag : TagRecord.tag (TagRecord.mk 25 "tcp" "email")
                 <> TagRecord.tag (TagRecord.mk 25 "tcp" "mail"))
    by discriminate.
  pose proof (C4_last_write_wins sample_tag_file []
                [TagRecord.mk 443 "tcp" "web"] [TagRecord.mk 68 "dhcp" "boot"]
                (TagRecord.mk 25 "tcp" "email") (TagRecord.mk 25 "tcp" "mail")
                eq_refl eq_refl Htag Hl3) as (H1 & _ & _ & _ & H5).
  split; [exact H1|]. exact (proj1 (H5 sample_flow_file)).
Defined.

(** ** Lines that the parser leaves out *)

Lemma coerce_all_nth (types : list FieldType) (parts : list string)
  (args : list Value) (i : nat) (ty : FieldType) (v : string) :
  coerce_all types parts = inr args ->
  nth_error types i = Some ty ->
  nth_error parts i = Some v ->
  exists x, coerce ty v = inr x.
Proof.
  revert parts args i.
  induction types as [|ty0 types IH]; intros parts args i H Ht Hp.
  - destruct i; discriminate Ht.
  - destruct parts as [|v0 parts]; [destruct i; discriminate Hp|].
    cbn [coerce_all] in H.
    destruct (coerce ty0 v0) as [e|x0] eqn:C0; [discriminate|].
    destruct (coerce_all types parts) as [e|xs] eqn:CA; [discriminate|].
    destruct i as [|i]; cbn [nth_error] in Ht, Hp.
    + injection Ht as <-. injection Hp as <-. eauto.
    + eapply IH; eauto.
Qed.

Lemma accepted_wrong_count {R : Type} (recordCls : RecordCls R)
  (parts : list string) :
  List.length parts <> List.length (cls_annotations recordCls) ->
  accepted recordCls parts = None.
Proof.
  intro H. unfold accepted, genRecord_step.
  apply Nat.eqb_neq in H. now rewrite H.
Qed.

Lemma accepted_bad_field {R : Type} (recordCls : RecordCls R)
  (parts : list string) (i : nat) (ty : FieldType) (v : string) (e : CoerceError) :
  nth_error (cls_annotations recordCls) i = Some ty ->
  nth_error parts i = Some v ->
  coerce ty v = inl e ->
  accepted recordCls parts = None.
Proof.
  intros Ht Hp Hc. unfold accepted, genRecord_step.
  destruct (negb _); [reflexivity|].
  destruct (coerce_all (cls_annotations recordCls) parts) as [e'|args] eqn:CA;
    [reflexivity|].
  destruct (coerce_all_nth _ _ _ _ _ _ CA Ht Hp) as [x Hx]. congruence.
Qed.

Lemma records_of_app {R : Type} (recordCls : RecordCls R)
  (a b : list (list string)) :
  records_of recordCls (a ++ b)
  = (records_of recordCls a ++ records_of recordCls b)%list.
Proof. unfold records_of. apply flat_map_app. Qed.

Lemma yielded_without {R : Type} (recordCls : RecordCls R)
  (lineLambda : string -> string) (pre post : list string) (bad : string) :
  pre <> [] ->
  accepted recordCls (PyStr.split ","%char (lineLambda bad)) = None ->
  yielded (genRecord (pre ++ bad :: post) recordCls lineLambda)
  = yielded (genRecord (pre ++ post) recordCls lineLambda).
Proof.
  intros Hpre Hbad. rewrite !yielded_genRecord. unfold data_fields.
  destruct pre as [|h pre]; [contradiction|]. cbn [app tl].
  rewrite !map_app, !records_of_app. cbn [map].
  change (?x :: ?l) with ([x] ++ l)%list at 1.
  rewrite records_of_app. unfold records_of at 2. cbn [flat_map].
  now rewrite Hbad.
Qed.

Lemma aggregate_yielded (st : State) (f g : File) :
  yielded (flow_events f) = yielded (flow_events g) ->
  tagMappings (aggregate st f) = tagMappings (aggregate st g)
  /\ untaggedCounter (aggregate st f) = untaggedCounter (aggregate st g).
Proof.
  intro H. unfold aggregate.
  destruct (aggregate_fold (flow_events f) st) as [Hf _].
  destruct (aggregate_fold (flow_events g) st) as [Hg _].
  rewrite H in Hf. rewrite <- Hg in Hf.
  injection Hf as H1 H2. auto.
Qed.

(** C6. A flow-log data line with 13 fields, or with a protocol field that
    is not the value of a declared member (99 for one), yields no record:
    the table and the untagged counter end as they would without the line,
    the lines after it being processed as usual. *)
Theorem C6_skip_semantics (st : State) (pre post : list string) (bad : string) :
  pre <> [] ->
  (List.length (PyStr.split ","%char (default_lineLambda bad)) = 13%nat
   \/ exists v,
        nth_error (PyStr.split ","%char (default_lineLambda bad)) 7 = Some v
        /\ IANAProtocolNum_call v = None) ->
  accepted FlowLogRecordV2Cls (PyStr.split ","%char (default_lineLambda bad))
  = None
  /\ yielded (flow_events (pre ++ bad :: post))
     = yielded (flow_events (pre ++ post))
  /\ tagMappings (aggregate st (pre ++ bad :: post))
     = tagMappings (aggregate st (pre ++ post))
  /\ untaggedCounter (aggregate st (pre ++ bad :: post))
     = untaggedCounter (aggregate st (pre ++ post))
  /\ IANAProtocolNum_call "99" = None.
Proof.
  intros Hpre Hbad.
  assert (Hacc : accepted FlowLogRecordV2Cls
                   (PyStr.split ","%char (default_lineLambda bad)) = None).
  { destruct Hbad as [Hlen|(v & Hv & Hcall)].
    - apply accepted_wrong_count. rewrite Hlen. cbn. lia.
    - apply (accepted_bad_field FlowLogRecordV2Cls _ 7 TIANAProtocolNum v
               (NotAValidMember "IANAProtocolNum" v)); auto.
      cbn [coerce]. now rewrite Hcall. }
  assert (Hy : yielded (flow_events (pre ++ bad :: post))
               = yielded (flow_events (pre ++ post)))
    by (apply yielded_without; assumption).
  destruct (aggregate_yielded st _ _ Hy) as [H1 H2].
  repeat split; assumption.
Qed.

Lemma C6_skip_semantics_witness :
  tagMappings
    (aggregate sample_state
       (sample_flow_file
        ++ "2,acct,eni-1,10.0.0.1,10.0.0.2,49152,25,99,10,840,1,2,ACCEPT,OK"
        :: ["2,acct,eni-1,10.0.0.1,10.0.0.2,49152,25,6,10,840,1,2,ACCEPT,OK"]))
  = tagMappings
      (aggregate sample_state
         (sample_flow_file
          ++ ["2,acct,eni-1,10.0.0.1,10.0.0.2,49152,25,6,10,840,1,2,ACCEPT,OK"]))
  /\ tagMappings
       (aggregate sample_state
          (sample_flow_file
           ++ "2,acct,eni-1,10.0.0.1,10.0.0.2,49152,25,6,10,840,1,2,ACCEPT"
           :: []))
     = tagMappings (aggregate sample_state (sample_flow_file ++ [])).
Proof.
  split.
  - refine (proj1 (proj2 (proj2
      (C6_skip_semantics sample_state sample_flow_file _ _ _ _)))).
    + discriminate.
    + right. exists "99". split; reflexivity.
  - refine (proj1 (proj2 (proj2
      (C6_skip_semantics sample_state sample_flow_file _ _ _ _)))).
    + discriminate.
    + left. reflexivity.
Defined.

(** ** An empty tag table *)

Lemma tally_all_empty (rs : list FlowLogRecordV2.t) (u : Z) :
  fold_left tally rs ([], u) = ([], u + Z.of_nat (List.length rs)).
Proof.
  revert u. induction rs as [|r rs IH]; intro u; cbn [fold_left List.length].
  - now rewrite Z.add_0_r.
  - unfold tally at 2. cbn [fst snd dict_mem dict_get]. rewrite IH.
    f_equal. lia.
Qed.

(** C7. With a mapping file that holds a header line only, the table is
    empty, every flow record that the parser yields adds 1 to the untagged
    counter, and the report is the line Tag,Count, the line
    Port,Protocol,Count and the line Untagged,N with N the number of
    yielded flow records. *)
Theorem C7_header_only_mapping (header : string) (flowFile : File) :
  tagMappings (build initial [header]) = []
  /\ tagMappings (run flowFile [header]) = []
  /\ untaggedCounter (run flowFile [header])
     = Z.of_nat (List.length (yielded (flow_events flowFile)))
  /\ (forall (u : Z) (o : list IOEvent) (r : FlowLogRecordV2.t),
        untaggedCounter
          (flow_step {| tagMappings := []; untaggedCounter := u; io := o |}
             (Yield r)) = u + 1)
  /\ report_writes (tagMappings (run flowFile [header]))
       (untaggedCounter (run flowFile [header]))
     = [tag_header; key_header;
        untagged_line (Z.of_nat (List.length (yielded (flow_events flowFile))))]
  /\ report (tagMappings (run flowFile [header]))
       (untaggedCounter (run flowFile [header]))
     = ("Tag,Count" ++ PyStr.nl ++ "Port,Protocol,Count" ++ PyStr.nl
        ++ "Untagged,"
        ++ PyStr.str_of_int
             (Z.of_nat (List.length (yielded (flow_events flowFile))))
        ++ PyStr.nl)%string.
Proof.
  pose proof (run_unfold flowFile [header]) as H.
  change (yielded (tag_events [header])) with (@nil TagRecord.t) in H.
  cbn [fold_left] in H. rewrite tally_all_empty in H.
  injection H as H1 H2.
  split; [reflexivity|]. split; [exact H1|]. split; [exact H2|].
  split; [reflexivity|].
  rewrite H1, H2. split; [reflexivity|].
  reflexivity.
Qed.

(** ** The log of the parser *)

Section ParserLog.
Context {R : Type} (recordCls : RecordCls R).

Lemma line_log_cases (parts : list string) :
  (wrong_count recordCls parts = true
   /\ accepted recordCls parts = None
   /\ line_log recordCls parts
      = [(INFO, SkippingInvalidRecord (PyStr.join "," parts))])
  \/ (wrong_count recordCls parts = false
      /\ accepted recordCls parts = None
      /\ exists e,
           line_log recordCls parts
           = [(WARNING, SkippingLine (PyStr.join "," parts) e)])
  \/ (wrong_count recordCls parts = false
      /\ (exists r, accepted recordCls parts = Some r)
      /\ line_log recordCls parts = []).
Proof.
  unfold line_log, accepted.
  destruct (genRecord_step_cases recordCls parts 0 0)
    as [[W E]|[[W [e E]]|[W [r E]]]]; rewrite E; cbn [fst].
  - left. auto.
  - right. left. eauto.
  - right. right. eauto.
Qed.

Lemma loop_logged (fields : list (list string)) (c s : Z) :
  logged (genRecord_loop recordCls (map Yield fields) c s)
  = body_log recordCls fields
    ++ [(INFO,
         Completed (cls_name recordCls)
           (c + Z.of_nat (List.length (records_of recordCls fields)))
           (s + Z.of_nat (List.length
                            (filter is_warning (body_log recordCls fields))))
           (s + Z.of_nat (List.length
                            (filter is_warning (body_log recordCls fields)))
            + (c + Z.of_nat (List.length (records_of recordCls fields)))))].
Proof.
  revert c s. induction fields as [|parts fields IH]; intros c s.
  - cbn. now rewrite !Z.add_0_r.
  - cbn [map genRecord_loop]. unfold body_log, records_of. cbn [flat_map].
    fold (body_log recordCls fields). fold (records_of recordCls fields).
    unfold line_log, accepted.
    destruct (genRecord_step_cases recordCls parts c s)
      as [[W E]|[[W [e E]]|[W [r E]]]]; rewrite E;
      destruct (genRecord_step_cases recordCls parts 0 0)
        as [[W0 E0]|[[W0 [e0 E0]]|[W0 [r0 E0]]]]; try congruence;
      pose proof (genRecord_step_event recordCls parts c s) as Ev;
      rewrite E, E0 in Ev; cbn [fst] in Ev; try discriminate Ev;
      rewrite E0; cbn [fst logged app]; rewrite IH.
    + reflexivity.
    + injection Ev as ->.
      cbn [filter is_warning fst List.length].
      rewrite Nat2Z.inj_succ. do 5 f_equal; lia.
    + cbn [List.length]. rewrite Nat2Z.inj_succ. do 4 f_equal; lia.
Qed.

Lemma body_log_counts (fields : list (list string)) :
  List.length (filter is_invalid_record (body_log recordCls fields))
  = List.length (filter (wrong_count recordCls) fields)
  /\ (List.length (records_of recordCls fields)
      + List.length (filter is_warning (body_log recordCls fields))
      + List.length (filter (wrong_count recordCls) fields)
      = List.length fields)%nat.
Proof.
  induction fields as [|parts fields [IH1 IH2]]; [split; reflexivity|].
  unfold body_log, records_of in *. cbn [flat_map filter].
  rewrite !filter_app, !length_app.
  destruct (line_log_cases parts) as [(W & A & L)|[(W & A & e & L)|(W & [r A] & L)]];
    rewrite W, A, L; cbn [filter is_invalid_record is_warning fst List.length];
    split; lia.
Qed.

End ParserLog.

(** C3, amended. A line whose field count differs from the number of
    expected fields yields no record and is reported by one INFO entry
    (Skipping invalid record) that quotes it, one such entry per such
    line, and not by a warning: every warning of the parser is for a line
    with the right field count whose coercion failed. *)
Theorem C3_wrong_count_logged_as_info {R : Type} (f : File)
  (recordCls : RecordCls R) (lineLambda : string -> string) :
  (forall parts,
     In parts (data_fields f lineLambda) ->
     wrong_count recordCls parts = true ->
     accepted recordCls parts = None
     /\ In (INFO, SkippingInvalidRecord (PyStr.join "," parts))
          (logged (genRecord f recordCls lineLambda)))
  /\ List.length
       (filter is_invalid_record (logged (genRecord f recordCls lineLambda)))
     = List.length (filter (wrong_count recordCls) (data_fields f lineLambda))
  /\ (forall e,
        In e (logged (genRecord f recordCls lineLambda)) ->
        is_warning e = true ->
        exists parts err,
          In parts (data_fields f lineLambda)
          /\ wrong_count recordCls parts = false
          /\ accepted recordCls parts = None
          /\ e = (WARNING, SkippingLine (PyStr.join "," parts) err)).
Proof.
  assert (HL : logged (genRecord f recordCls lineLambda)
               = (INFO, CsvHeader (PyStr.strip (hd EmptyString f)))
                 :: logged (genRecord_loop recordCls
                              (map Yield (data_fields f lineLambda)) 0 0)).
  { unfold genRecord, genFields, data_fields. cbn [genRecord_loop logged].
    now rewrite map_map. }
  rewrite HL, loop_logged.
  set (fields := data_fields f lineLambda).
  destruct (body_log_counts recordCls fields) as [C1 _].
  split; [|split].
  - intros parts Hin Hw.
    destruct (line_log_cases recordCls parts) as [(W & A & L)|[(W & _)|(W & _)]];
      try congruence.
    split; [exact A|].
    right. apply in_or_app. left. unfold body_log. apply in_flat_map.
    exists parts. split; [assumption|]. rewrite L. now left.
  - cbn [filter is_invalid_record]. rewrite filter_app, length_app.
    cbn [filter is_invalid_record List.length]. lia.
  - intros e [He|He] Hw; [subst e; discriminate Hw|].
    apply in_app_or in He. destruct He as [He|[He|[]]];
      [|subst e; discriminate Hw].
    unfold body_log in He. apply in_flat_map in He.
    destruct He as (parts & Hin & He).
    destruct (line_log_cases recordCls parts)
      as [(W & A & L)|[(W & A & err & L)|(W & [r A] & L)]]; rewrite L in He.
    + destruct He as [<-|[]]. discriminate Hw.
    + destruct He as [<-|[]]. exists parts, err. auto.
    + destruct He.
Qed.

Lemma C3_wrong_count_logged_as_info_witness :
  In ["25"; "tcp"] (data_fields short_tag_file tag_lineLambda)
  /\ wrong_count TagRecordCls ["25"; "tcp"] = true
  /\ accepted TagRecordCls ["25"; "tcp"] = None
  /\ In (INFO, SkippingInvalidRecord (PyStr.join "," ["25"; "tcp"]))
       (logged (genRecord short_tag_file TagRecordCls tag_lineLambda)).
Proof.
  assert (Hin : In ["25"; "tcp"] (data_fields short_tag_file tag_lineLambda))
    by (vm_compute; tauto).
  split; [exact Hin|]. split; [reflexivity|].
  exact (proj1 (C3_wrong_count_logged_as_info short_tag_file TagRecordCls
                  tag_lineLambda)
           ["25"; "tcp"] Hin eq_refl).
Defined.

(** C3, as the spec has it, fails on a mapping file with one data line of
    two fields: the line is of the wrong field count, yet no warning is
    logged for it, and it is in none of the counts of the summary, which
    reads ok 0, skipped 0, total 0. *)
Lemma C3_wrong_count_not_counted :
  data_fields short_tag_file tag_lineLambda = [["25"; "tcp"]]
  /\ wrong_count TagRecordCls ["25"; "tcp"] = true
  /\ logged (genRecord short_tag_file TagRecordCls tag_lineLambda)
     = [(INFO, CsvHeader "dstport,protocol,tag");
        (INFO, SkippingInvalidRecord "25,tcp");
        (INFO, Completed "TagRecord" 0 0 0)]
  /\ ~ (exists msg,
          In (WARNING, msg)
            (logged (genRecord short_tag_file TagRecordCls tag_lineLambda))).
Proof.
  split; [reflexivity|]. split; [reflexivity|]. split; [reflexivity|].
  intros [msg H]. vm_compute in H.
  destruct H as [H|[H|[H|[]]]]; discriminate H.
Qed.

(** ** The command line *)

Lemma build_io (st : State) (tagFile : File) :
  io (build st tagFile) = io st ++ map LogLine (logged (tag_events tagFile)).
Proof. unfold build. apply build_fold. Qed.

Lemma aggregate_io (st : State) (flowFile : File) :
  io (aggregate st flowFile)
  = io st ++ map LogLine (flow_trace (flow_events flowFile)).
Proof. unfold aggregate. apply aggregate_fold. Qed.

Lemma main_opens_mapping_first (w : World) (a b c : string) :
  exists rest, trace (main w a b c) = OpenRead b :: rest.
Proof.
  unfold main, fatal.
  destruct (read_file w b) as [tagFile|]; [|cbn; eauto].
  destruct (read_file w a) as [flowFile|].
  - destruct (can_write w c); cbn [trace do_io io];
      rewrite aggregate_io; cbn [do_io io]; rewrite build_io; cbn; eauto.
  - cbn [trace do_io io]. rewrite build_io. cbn. eauto.
Qed.

(** C8. When the number of positional arguments is not three, the script
    prints the usage message on standard output and exits with status 1,
    and it opens, reads and writes no file; with three positional
    arguments it runs [main] on them, whose first act is to open the
    mapping file. *)
Theorem C8_argument_count (w : World) (argv : list string) :
  (List.length (positional argv) <> 3%nat ->
   script w argv = {| trace := [Print usage_text]; exit_status := 1 |}
   /\ existsb is_file_io (trace (script w argv)) = false)
  /\ (List.length (positional argv) = 3%nat ->
      script w argv
      = main w (nth 1 argv EmptyString) (nth 2 argv EmptyString)
          (nth 3 argv EmptyString)
      /\ exists rest,
           trace (script w argv) = OpenRead (nth 2 argv EmptyString) :: rest).
Proof.
  unfold script, positional. split; intro H.
  - assert (E : Nat.eqb (List.length argv) 4 = false).
    { apply Nat.eqb_neq. destruct argv; cbn [tl List.length] in *; lia. }
    rewrite E. split; reflexivity.
  - assert (E : Nat.eqb (List.length argv) 4 = true).
    { apply Nat.eqb_eq. destruct argv; cbn [tl List.length] in *; lia. }
    rewrite E. split; [reflexivity|]. apply main_opens_mapping_first.
Qed.

Lemma C8_argument_count_witness :
  script sample_world ["main.py"; "flows.csv"]
  = {| trace := [Print usage_text]; exit_status := 1 |}
  /\ script sample_world ["main.py"; "flows.csv"; "tags.csv"; "out.csv"]
     = main sample_world "flows.csv" "tags.csv" "out.csv".
Proof.
  split.
  - refine (proj1 (proj1 (C8_argument_count sample_world
                            ["main.py"; "flows.csv"]) _)).
    cbn. lia.
  - refine (proj1 (proj2 (C8_argument_count sample_world
                            ["main.py"; "flows.csv"; "tags.csv"; "out.csv"]) _)).
    reflexivity.
Defined.

(** ** Lower case *)

Lemma lower_ascii_idem (c : ascii) :
  PyStr.lower_ascii (PyStr.lower_ascii c) = PyStr.lower_ascii c.
Proof. destruct c as [[] [] [] [] [] [] [] []]; reflexivity. Qed.

Lemma lower_lowered (s : string) : lowered (PyStr.lower s).
Proof.
  unfold lowered. induction s as [|c s IH]; cbn [PyStr.lower]; [reflexivity|].
  now rewrite lower_ascii_idem, IH.
Qed.

Lemma split_lowered (sep : ascii) (s : string) :
  lowered s -> Forall lowered (PyStr.split sep s).
Proof.
  unfold lowered. induction s as [|c s IH]; cbn [PyStr.lower PyStr.split].
  - intros _. repeat constructor.
  - intros [= Hc Hs]. specialize (IH Hs).
    destruct (Ascii.eqb c sep).
    + constructor; [reflexivity|assumption].
    + destruct (PyStr.split sep s) as [|p ps].
      * repeat constructor. cbn [PyStr.lower]. now rewrite Hc.
      * inversion IH as [|? ? Hp Hps]; subst.
        constructor; [|assumption]. cbn [PyStr.lower]. now rewrite Hc, Hp.
Qed.

Lemma accepted_tag_fields (parts : list string) (r : TagRecord.t) :
  accepted TagRecordCls parts = Some r ->
  In (TagRecord.protocol r) parts /\ In (TagRecord.tag r) parts.
Proof.
  unfold accepted, genRecord_step.
  destruct parts as [|a [|b [|c [|d parts]]]]; try discriminate.
  cbn [List.length TagRecordCls cls_annotations Nat.eqb negb coerce_all coerce].
  destruct (PyStr.int a) as [n|]; [|discriminate].
  cbn [cls_init fst]. intros [= <-]. cbn. tauto.
Qed.

Lemma yielded_tags_lowered (tagFile : File) (r : TagRecord.t) :
  In r (yielded (tag_events tagFile)) ->
  lowered (TagRecord.protocol r) /\ lowered (TagRecord.tag r).
Proof.
  unfold tag_events. rewrite yielded_genRecord. unfold records_of.
  intro H. apply in_flat_map in H. destruct H as (parts & Hin & Hr).
  destruct (accepted TagRecordCls parts) as [r'|] eqn:A; [|destruct Hr].
  destruct Hr as [<-|[]].
  unfold data_fields in Hin. apply in_map_iff in Hin.
  destruct Hin as (line & <- & _).
  destruct (accepted_tag_fields _ _ A) as [Hp Ht].
  pose proof (split_lowered ","%char (tag_lineLambda line)
                (lower_lowered (PyStr.strip line))) as F.
  rewrite Forall_forall in F. auto.
Qed.

(** ** Properties of the entries that the counters do not touch *)

Section Entries.
Variable P : Key -> TagRecord.t -> Prop.

Lemma store_all_entries (rs : list TagRecord.t) (tbl : TagTable) :
  entries_all P tbl ->
  (forall r, In r rs -> P (tag_key r) r) ->
  entries_all P (fold_left store rs tbl).
Proof.
  revert tbl. induction rs as [|r rs IH]; intros tbl Ht Hr; cbn [fold_left]; auto.
  apply IH; [|intros r' Hr'; apply Hr; now right].
  intros k t c Hin. unfold store in Hin.
  destruct (dict_set_In key_eqb key_eqb_eq _ _ _ _ Hin) as [H|[= -> -> ->]].
  - eapply Ht; eauto.
  - apply Hr. now left.
Qed.

Lemma tally_all_entries (rs : list FlowLogRecordV2.t) (acc : TagTable * Z) :
  entries_all P (fst acc) -> entries_all P (fst (fold_left tally rs acc)).
Proof.
  revert acc. induction rs as [|r rs IH]; intros acc H; cbn [fold_left]; auto.
  apply IH. unfold tally, bump.
  destruct (dict_mem key_eqb (flow_key r) (fst acc)); cbn [fst]; auto.
  destruct (dict_get key_eqb (flow_key r) (fst acc)) as [[t0 c0]|] eqn:G; auto.
  intros k t c Hin.
  destruct (dict_set_In key_eqb key_eqb_eq _ _ _ _ Hin) as [Hi|[= -> -> ->]].
  - eapply H; eauto.
  - eapply H. apply (dict_get_In key_eqb key_eqb_eq _ _ _ G).
Qed.

End Entries.

Lemma run_entries_lowered (flowFile tagFile : File) :
  entries_all (fun k t => lowered (snd k) /\ lowered (TagRecord.tag t))
    (tagMappings (run flowFile tagFile)).
Proof.
  pose proof (run_unfold flowFile tagFile) as H.
  apply (f_equal fst) in H. cbn [fst] in H. rewrite H.
  apply tally_all_entries. cbn [fst]. apply store_all_entries.
  - intros k t c [].
  - intros r Hr. cbn [tag_key snd]. now apply (yielded_tags_lowered tagFile).
Qed.

(** ** The per-tag sums *)

Lemma string_eqb_eq (a b : string) : String.eqb a b = true <-> a = b.
Proof. apply String.eqb_eq. Qed.

Lemma dict_keys_In_get {K V : Type} (eqb : K -> K -> bool)
  (eqb_eq : forall a b, eqb a b = true <-> a = b) (k : K) (d : list (K * V)) :
  In k (dict_keys d) <-> exists v, dict_get eqb k d = Some v.
Proof.
  split.
  - induction d as [|[k' v'] d IH]; cbn [dict_keys map In dict_get fst];
      [tauto|].
    intros [->|H].
    + rewrite (proj2 (eqb_eq k k) eq_refl). eauto.
    + destruct (eqb k' k); eauto.
  - intros [v G]. apply (dict_get_In eqb eqb_eq) in G.
    change k with (fst (k, v)). now apply in_map.
Qed.

Lemma tagCounts_add_get (t t' : string) (n : Z) (acc : list (string * Z)) :
  dict_get String.eqb t (tagCounts_add t' n acc)
  = if String.eqb t' t then Some (count_of t acc + n)
    else dict_get String.eqb t acc.
Proof.
  unfold tagCounts_add, count_of.
  destruct (String.eqb t' t) eqn:E.
  - apply String.eqb_eq in E. subst t'.
    destruct (dict_get String.eqb t acc);
      now rewrite (dict_get_set_eq String.eqb string_eqb_eq).
  - apply String.eqb_neq in E.
    destruct (dict_get String.eqb t' acc);
      now rewrite (dict_get_set_ne String.eqb string_eqb_eq _ _ _ _ E).
Qed.

Lemma tagCounts_fold_get (t : string) (l : TagTable) (acc : list (string * Z)) :
  dict_get String.eqb t (fold_left tagCounts_step l acc)
  = if dict_mem String.eqb t acc || has_tag t l
    then Some (count_of t acc + tag_total t l)
    else None.
Proof.
  revert acc. induction l as [|[k [r c]] l IH]; intro acc;
    cbn [fold_left has_tag existsb tag_total fold_right fst snd].
  - rewrite orb_false_r, Z.add_0_r. unfold dict_mem, count_of.
    now destruct (dict_get String.eqb t acc).
  - rewrite IH. fold (has_tag t l). fold (tag_total t l).
    unfold dict_mem, count_of, tagCounts_step. cbn [fst snd].
    rewrite tagCounts_add_get.
    destruct (String.eqb (TagRecord.tag r) t).
    + rewrite orb_true_r. cbn [orb]. unfold count_of. now rewrite Z.add_assoc.
    + cbn [orb]. reflexivity.
Qed.

Lemma tagCounts_fold_NoDup (l : TagTable) (acc : list (string * Z)) :
  NoDup (dict_keys acc) -> NoDup (dict_keys (fold_left tagCounts_step l acc)).
Proof.
  revert acc. induction l as [|e l IH]; intros acc H; cbn [fold_left]; auto.
  apply IH. unfold tagCounts_step, tagCounts_add.
  destruct (dict_get String.eqb _ acc);
    now apply (dict_set_NoDup String.eqb string_eqb_eq).
Qed.

(** Reading each entry back through its key gives the entry. *)
Lemma tagCounts_via_keys (tbl l : TagTable) (acc : list (string * Z)) :
  (forall e, In e l -> dict_get key_eqb (fst e) tbl = Some (snd e)) ->
  fold_left
    (fun tagCounts key =>
       match dict_get key_eqb key tbl with
       | Some (tagRecord, count) =>
           tagCounts_add (TagRecord.tag tagRecord) count tagCounts
       | None => tagCounts
       end)
    (map fst l) acc
  = fold_left tagCounts_step l acc
  /\ map (key_line tbl) (map fst l) = map entry_line l.
Proof.
  revert acc. induction l as [|[k [r c]] l IH]; intros acc G;
    [split; reflexivity|].
  cbn [map fold_left fst].
  pose proof (G _ (or_introl eq_refl)) as Gk. cbn [fst snd] in Gk.
  destruct (IH (tagCounts_step acc (k, (r, c)))
              (fun e He => G e (or_intror He))) as [IH1 IH2].
  split.
  - rewrite Gk. exact IH1.
  - f_equal; [|exact IH2]. unfold key_line, entry_line. now rewrite Gk.
Qed.

Lemma tagCounts_of_entries (tbl : TagTable) :
  NoDup (dict_keys tbl) ->
  tagCounts_of tbl = fold_left tagCounts_step tbl []
  /\ map (key_line tbl) (dict_keys tbl) = map entry_line tbl.
Proof.
  intro Hnd. unfold tagCounts_of, dict_keys. apply tagCounts_via_keys.
  intros [k v] He. now apply (In_dict_get key_eqb key_eqb_eq).
Qed.

Lemma has_tag_In (t : string) (tbl : TagTable) :
  has_tag t tbl = true
  <-> exists k r c, In (k, (r, c)) tbl /\ TagRecord.tag r = t.
Proof.
  unfold has_tag. rewrite existsb_exists. split.
  - intros ([k [r c]] & Hin & E). apply String.eqb_eq in E. eauto.
  - intros (k & r & c & Hin & E). exists (k, (r, c)). split; [assumption|].
    now apply String.eqb_eq.
Qed.

(** ** Header lines and data lines *)

Lemma before_last_cons (c d : ascii) (s : string) :
  before_last s = Some d -> before_last (String c s) = Some d.
Proof.
  destruct s as [|x [|y s]]; cbn [before_last]; try discriminate; auto.
Qed.

Lemma before_last_app (a s : string) (d : ascii) :
  before_last s = Some d -> before_last (a ++ s)%string = Some d.
Proof.
  intro H. induction a as [|c a IH]; cbn [String.append]; auto.
  now apply before_last_cons.
Qed.

Lemma before_last_uint (u : Decimal.uint) :
  u <> Decimal.Nil ->
  exists d, before_last (NilEmpty.string_of_uint u ++ PyStr.nl)%string = Some d
            /\ PyStr.isdigit d = true.
Proof.
  induction u as [|u IH|u IH|u IH|u IH|u IH|u IH|u IH|u IH|u IH|u IH];
    intro Hne; [contradiction| | | | | | | | | |];
    cbn [NilEmpty.string_of_uint String.append];
    (destruct u; [eexists; split; reflexivity| | | | | | | | | |]);
    (destruct IH as (d & Hd & Hdig); [discriminate|];
     exists d; split; [now apply before_last_cons|exact Hdig]).
Qed.

Lemma before_last_int (n : Z) :
  exists d, before_last (PyStr.str_of_int n ++ PyStr.nl)%string = Some d
            /\ PyStr.isdigit d = true.
Proof.
  unfold PyStr.str_of_int. destruct n as [|p|p]; cbn [Z.to_int NilEmpty.string_of_int].
  - eexists; split; reflexivity.
  - apply before_last_uint. apply DecimalPos.Unsigned.to_uint_nonnil.
  - destruct (before_last_uint (Pos.to_uint p)
                (DecimalPos.Unsigned.to_uint_nonnil p)) as (d & Hd & Hdig).
    exists d. split; [|exact Hdig]. cbn [String.append].
    now apply before_last_cons.
Qed.

Lemma counted_line_not_header (a : string) (n : Z) :
  (a ++ PyStr.str_of_int n ++ PyStr.nl)%string <> tag_header
  /\ (a ++ PyStr.str_of_int n ++ PyStr.nl)%string <> key_header.
Proof.
  destruct (before_last_int n) as (d & Hd & Hdig).
  pose proof (before_last_app a _ d Hd) as H.
  split; intro E; rewrite E in H; vm_compute in H;
    injection H as <-; discriminate Hdig.
Qed.

Lemma append_assoc (a b c : string) :
  ((a ++ b) ++ c)%string = (a ++ b ++ c)%string.
Proof. induction a as [|x a IH]; cbn [String.append]; [|rewrite IH]; reflexivity. Qed.

(** ** The report *)

Lemma tagCounts_of_tags (tbl : TagTable) :
  NoDup (dict_keys tbl) ->
  NoDup (map fst (tagCounts_of tbl))
  /\ (forall t,
        In t (map fst (tagCounts_of tbl))
        <-> exists k r c, In (k, (r, c)) tbl /\ TagRecord.tag r = t)
  /\ (forall t c, In (t, c) (tagCounts_of tbl) -> c = tag_total t tbl).
Proof.
  intro Hnd.
  destruct (tagCounts_of_entries tbl Hnd) as [T1 _].
  assert (ND : NoDup (dict_keys (tagCounts_of tbl)))
    by (rewrite T1; apply tagCounts_fold_NoDup; constructor).
  assert (G : forall t,
             dict_get String.eqb t (tagCounts_of tbl)
             = if has_tag t tbl then Some (tag_total t tbl) else None).
  { intro t. rewrite T1, tagCounts_fold_get. reflexivity. }
  split; [exact ND|]. split.
  - intro t. fold (dict_keys (tagCounts_of tbl)).
    rewrite (dict_keys_In_get String.eqb string_eqb_eq), <- has_tag_In, G.
    destruct (has_tag t tbl); split; eauto; try discriminate.
    intros [v [=]].
  - intros t c Hin.
    pose proof (In_dict_get String.eqb string_eqb_eq _ _ _ ND Hin) as Ht.
    rewrite G in Ht. destruct (has_tag t tbl); congruence.
Qed.

(** C5. For a table with one entry per key, the writes to the output file
    are, in order: the line Tag,Count; one line made of a tag, a comma and
    a count per distinct tag, the count being the sum of the counters of
    the entries with that tag; the line Port,Protocol,Count; one line
    made of port, comma, protocol, comma and count per entry of the table;
    the line Untagged, comma, count. Every line ends in a line feed. No
    data line is equal to one of the two header lines, and the file holds
    nothing else. On the mappings 25,tcp,email and 443,tcp,web and flows
    to the ports 25, 443 and 80 the file reads as the last equation
    spells out. *)
Theorem C5_report_sections (tbl : TagTable) (untagged : Z) :
  NoDup (dict_keys tbl) ->
  report_writes tbl untagged
  = ("Tag,Count" ++ PyStr.nl)%string
    :: map (fun item : string * Z =>
              (fst item ++ "," ++ PyStr.str_of_int (snd item) ++ PyStr.nl)%string)
         (tagCounts_of tbl)
    ++ ("Port,Protocol,Count" ++ PyStr.nl)%string
    :: map (fun entry : Key * (TagRecord.t * Z) =>
              (PyStr.str_of_int (fst (fst entry)) ++ "," ++ snd (fst entry)
               ++ "," ++ PyStr.str_of_int (snd (snd entry)) ++ PyStr.nl)%string)
         tbl
    ++ [("Untagged," ++ PyStr.str_of_int untagged ++ PyStr.nl)%string]
  /\ PyStr.nl = String "010"%char EmptyString
  /\ NoDup (map fst (tagCounts_of tbl))
  /\ (forall t,
        In t (map fst (tagCounts_of tbl))
        <-> exists k r c, In (k, (r, c)) tbl /\ TagRecord.tag r = t)
  /\ (forall t c, In (t, c) (tagCounts_of tbl) -> c = tag_total t tbl)
  /\ (forall line,
        (exists tag count,
           In (tag, count) (tagCounts_of tbl)
           /\ line = (tag ++ "," ++ PyStr.str_of_int count ++ PyStr.nl)%string)
        \/ (exists port protocol r count,
              In ((port, protocol), (r, count)) tbl
              /\ line = (PyStr.str_of_int port ++ "," ++ protocol ++ ","
                         ++ PyStr.str_of_int count ++ PyStr.nl)%string) ->
        line <> ("Tag,Count" ++ PyStr.nl)%string
        /\ line <> ("Port,Protocol,Count" ++ PyStr.nl)%string)
  /\ report tbl untagged
     = String.concat EmptyString (report_writes tbl untagged)
  /\ (let LF := String "010"%char EmptyString in
      let final :=
        run sample_flow_file ["dstport,protocol,tag"; "25,tcp,email"; "443,tcp,web"] in
      report (tagMappings final) (untaggedCounter final)
      = ("Tag,Count" ++ LF ++ "email,1" ++ LF ++ "web,1" ++ LF
         ++ "Port,Protocol,Count" ++ LF ++ "25,tcp,1" ++ LF ++ "443,tcp,1" ++ LF
         ++ "Untagged,1" ++ LF)%string).
Proof.
  intro Hnd.
  destruct (tagCounts_of_entries tbl Hnd) as [_ T2].
  destruct (tagCounts_of_tags tbl Hnd) as (ND & Hkeys & Hsum).
  assert (W : report_writes tbl untagged
              = ("Tag,Count" ++ PyStr.nl)%string
                :: map tag_line (tagCounts_of tbl)
                ++ ("Port,Protocol,Count" ++ PyStr.nl)%string
                :: map entry_line tbl
                ++ [("Untagged," ++ PyStr.str_of_int untagged ++ PyStr.nl)%string]).
  { unfold report_writes. now rewrite T2. }
  split; [exact W|]. split; [reflexivity|]. split; [exact ND|].
  split; [exact Hkeys|]. split; [exact Hsum|]. split; [|split].
  - intros line [(t & c & _ & ->)|(p & s & r & c & _ & ->)].
    + rewrite <- append_assoc. apply counted_line_not_header.
    + replace (PyStr.str_of_int p ++ "," ++ s ++ ","
               ++ PyStr.str_of_int c ++ PyStr.nl)%string
        with ((PyStr.str_of_int p ++ "," ++ s ++ ",")
              ++ PyStr.str_of_int c ++ PyStr.nl)%string
        by (now rewrite !append_assoc).
      apply counted_line_not_header.
  - reflexivity.
  - vm_compute. reflexivity.
Qed.

Lemma C5_report_sections_witness :
  NoDup (dict_keys (tagMappings (run sample_flow_file sample_tag_file)))
  /\ report_writes (tagMappings (run sample_flow_file sample_tag_file))
       (untaggedCounter (run sample_flow_file sample_tag_file))
     = ("Tag,Count" ++ PyStr.nl)%string
       :: map (fun item : string * Z =>
                 (fst item ++ "," ++ PyStr.str_of_int (snd item)
                  ++ PyStr.nl)%string)
            (tagCounts_of (tagMappings (run sample_flow_file sample_tag_file)))
       ++ ("Port,Protocol,Count" ++ PyStr.nl)%string
       :: map (fun entry : Key * (TagRecord.t * Z) =>
                 (PyStr.str_of_int (fst (fst entry)) ++ "," ++ snd (fst entry)
                  ++ "," ++ PyStr.str_of_int (snd (snd entry))
                  ++ PyStr.nl)%string)
            (tagMappings (run sample_flow_file sample_tag_file))
       ++ [("Untagged,"
            ++ PyStr.str_of_int
                 (untaggedCounter (run sample_flow_file sample_tag_file))
            ++ PyStr.nl)%string].
Proof.
  split; [apply run_NoDup|].
  exact (proj1 (C5_report_sections
                  (tagMappings (run sample_flow_file sample_tag_file))
                  (untaggedCounter (run sample_flow_file sample_tag_file))
                  (run_NoDup sample_flow_file sample_tag_file))).
Defined.












(** * Further properties of the parts *)

(** ** Splitting and joining *)

Lemma split_nonempty (sep : ascii) (s : string) : PyStr.split sep s <> [].
Proof.
  destruct s as [|c s]; cbn [PyStr.split]; [discriminate|].
  destruct (Ascii.eqb c sep); [discriminate|].
  destruct (PyStr.split sep s); discriminate.
Qed.

Lemma concat_cons (sep x : string) (p : string) (ps : list string) :
  String.concat sep (x :: p :: ps)
  = (x ++ sep ++ String.concat sep (p :: ps))%string.
Proof. reflexivity. Qed.

Lemma split_cons_other (sep c : ascii) (p : string) (rest : list string)
  (s : string) :
  Ascii.eqb c sep = false ->
  PyStr.split sep s = p :: rest ->
  PyStr.split sep (String c s) = String c p :: rest.
Proof. intros E H. cbn [PyStr.split]. now rewrite E, H. Qed.

Lemma split_app_sep (sep : ascii) (p rest : string) :
  count_char sep p = O ->
  PyStr.split sep (p ++ String sep rest) = p :: PyStr.split sep rest.
Proof.
  induction p as [|c p IH]; cbn [String.append count_char PyStr.split].
  - intros _. now rewrite Ascii.eqb_refl.
  - destruct (Ascii.eqb c sep) eqn:E; [discriminate|].
    intro H. now rewrite (IH H).
Qed.

Lemma split_no_sep (sep : ascii) (p : string) :
  count_char sep p = O -> PyStr.split sep p = [p].
Proof.
  induction p as [|c p IH]; cbn [count_char PyStr.split]; [reflexivity|].
  destruct (Ascii.eqb c sep) eqn:E; [discriminate|].
  intro H. now rewrite (IH H).
Qed.

Lemma split_facts (sep : ascii) (s : string) :
  PyStr.join (String sep EmptyString) (PyStr.split sep s) = s
  /\ Forall (fun p => count_char sep p = O) (PyStr.split sep s)
  /\ List.length (PyStr.split sep s) = S (count_char sep s).
Proof.
  induction s as [|c s IH]; cbn [PyStr.split count_char].
  - repeat split. repeat constructor.
  - destruct IH as (IH1 & IH2 & IH3).
    pose proof (split_nonempty sep s) as Hne.
    destruct (Ascii.eqb c sep) eqn:E.
    + apply Ascii.eqb_eq in E. subst c.
      destruct (PyStr.split sep s) as [|p ps] eqn:Sp; [contradiction|].
      unfold PyStr.join in *. rewrite concat_cons, IH1.
      repeat split; [constructor; [reflexivity|assumption]|].
      cbn [List.length] in *. lia.
    + destruct (PyStr.split sep s) as [|p ps] eqn:Sp; [contradiction|].
      apply Forall_cons_iff in IH2. destruct IH2 as [Hp Hps].
      unfold PyStr.join in *. repeat split.
      * destruct ps as [|q ps].
        -- cbn [String.concat] in IH1 |- *. now rewrite IH1.
        -- rewrite concat_cons in IH1 |- *. now rewrite <- IH1.
      * constructor; [|assumption]. cbn [count_char]. now rewrite E.
      * exact IH3.
Qed.

(** X2. Joining the fields of a line with the separator gives the line
    back, so a skipped line is logged as it was after the line transform;
    no field holds the separator, and there is one field more than there
    are separators in the line.  The other way round, a non-empty list of
    separator-free fields is what splitting their join gives. *)
Theorem split_join_round_trip (sep : ascii) :
  (forall s : string,
     PyStr.join (String sep EmptyString) (PyStr.split sep s) = s
     /\ Forall (fun p => count_char sep p = O) (PyStr.split sep s)
     /\ List.length (PyStr.split sep s) = S (count_char sep s))
  /\ (forall parts : list string,
        parts <> [] ->
        Forall (fun p => count_char sep p = O) parts ->
        PyStr.split sep (PyStr.join (String sep EmptyString) parts) = parts).
Proof.
  split; [apply split_facts|].
  intros parts Hne HF. unfold PyStr.join.
  induction parts as [|p parts IH]; [contradiction|].
  apply Forall_cons_iff in HF. destruct HF as [Hp Hps].
  destruct parts as [|q parts].
  - cbn [String.concat]. now apply split_no_sep.
  - rewrite concat_cons. cbn [String.append].
    rewrite (split_app_sep sep p _ Hp). f_equal.
    apply IH; [discriminate|assumption].
Qed.

Lemma split_join_round_trip_witness :
  PyStr.split ","%char (PyStr.join "," ["25"; "tcp"; "email"])
  = ["25"; "tcp"; "email"].
Proof.
  apply (proj2 (split_join_round_trip ","%char)).
  - discriminate.
  - repeat constructor.
Defined.

(** ** White space around a line *)







(** ** Lower case and white space *)

Lemma isspace_lower (c : ascii) :
  PyStr.isspace (PyStr.lower_ascii c) = PyStr.isspace c.
Proof. destruct c as [[] [] [] [] [] [] [] []]; reflexivity. Qed.

Lemma lstrip_lower (s : string) :
  PyStr.lstrip_by PyStr.isspace (PyStr.lower s)
  = PyStr.lower (PyStr.lstrip_by PyStr.isspace s).
Proof.
  induction s as [|c s IH]; cbn [PyStr.lower PyStr.lstrip_by]; [reflexivity|].
  rewrite isspace_lower. destruct (PyStr.isspace c); [exact IH|reflexivity].
Qed.

Lemma rstrip_lower (s : string) :
  PyStr.rstrip_by PyStr.isspace (PyStr.lower s)
  = PyStr.lower (PyStr.rstrip_by PyStr.isspace s).
Proof.
  induction s as [|c s IH]; cbn [PyStr.lower PyStr.rstrip_by]; [reflexivity|].
  rewrite IH, isspace_lower.
  destruct (PyStr.rstrip_by PyStr.isspace s); cbn [PyStr.lower];
    [destruct (PyStr.isspace c)|]; reflexivity.
Qed.

Lemma strip_lower (s : string) :
  PyStr.strip (PyStr.lower s) = PyStr.lower (PyStr.strip s).
Proof.
  unfold PyStr.strip, PyStr.strip_by. now rewrite lstrip_lower, rstrip_lower.
Qed.





(** X5. The mapping file is read without regard to letter case: two
    mapping files whose data lines are equal once lowered yield the same
    tag records and build the same table. *)
Theorem mapping_case_insensitive (st : State) (f g : File) :
  map PyStr.lower (tl f) = map PyStr.lower (tl g) ->
  yielded (tag_events f) = yielded (tag_events g)
  /\ tagMappings (build st f) = tagMappings (build st g).
Proof.
  intro H.
  assert (Hy : yielded (tag_events f) = yielded (tag_events g)).
  { unfold tag_events. rewrite !yielded_genRecord. unfold data_fields.
    f_equal.
    assert (E : forall l : list string,
               map (fun line => PyStr.split ","%char (tag_lineLambda line)) l
               = map (fun t => PyStr.split ","%char (PyStr.strip t))
                   (map PyStr.lower l)).
    { intro l. rewrite map_map. apply map_ext. intro line.
      unfold tag_lineLambda. now rewrite strip_lower. }
    now rewrite !E, H. }
  split; [exact Hy|]. unfold build.
  destruct (build_fold (tag_events f) st) as (B1 & _).
  destruct (build_fold (tag_events g) st) as (B2 & _).
  now rewrite B1, B2, Hy.
Qed.

Lemma mapping_case_insensitive_witness :
  tagMappings (build initial ["DstPort,Protocol,Tag"; "25,TCP,Email"])
  = tagMappings (build initial ["dstport,protocol,tag"; "25,tcp,email"]).
Proof.
  apply (proj2 (mapping_case_insensitive initial
                  ["DstPort,Protocol,Tag"; "25,TCP,Email"]
                  ["dstport,protocol,tag"; "25,tcp,email"] eq_refl)).
Defined.

(** ** Integers in and out *)

Lemma strip_by_none (sp : ascii -> bool) (s : string) :
  all_chars (fun c => negb (sp c)) s = true -> PyStr.strip_by sp s = s.
Proof.
  intro H. unfold PyStr.strip_by.
  assert (L : PyStr.lstrip_by sp s = s).
  { destruct s as [|c s]; [reflexivity|]. cbn [all_chars] in H.
    apply andb_true_iff in H. destruct H as [Hc _].
    cbn [PyStr.lstrip_by]. now destruct (sp c). }
  rewrite L. clear L.
  induction s as [|c s IH]; [reflexivity|]. cbn [all_chars] in H.
  apply andb_true_iff in H. destruct H as [Hc Hs].
  cbn [PyStr.rstrip_by]. rewrite (IH Hs).
  destruct s; [|reflexivity]. now destruct (sp c).
Qed.

Lemma uint_digits (u : Decimal.uint) :
  all_chars PyStr.isdigit (NilEmpty.string_of_uint u) = true.
Proof. induction u; cbn [NilEmpty.string_of_uint all_chars]; auto. Qed.

Lemma all_chars_impl (p q : ascii -> bool) (s : string) :
  (forall c, p c = true -> q c = true) ->
  all_chars p s = true -> all_chars q s = true.
Proof.
  intro H. induction s as [|c s IH]; cbn [all_chars]; auto.
  intro A. apply andb_true_iff in A. destruct A as [Hc Hs].
  now rewrite (H c Hc), (IH Hs).
Qed.

Lemma digit_not_cspace (c : ascii) :
  PyStr.isdigit c = true -> negb (PyStr.is_cspace c) = true.
Proof.
  destruct c as [[] [] [] [] [] [] [] []]; vm_compute; intro H;
    (reflexivity || discriminate H).
Qed.

Lemma int_tail_uint (u : Decimal.uint) (acc : positive) :
  PyStr.int_tail (Z.pos acc) (NilEmpty.string_of_uint u)
  = Some (Z.pos (Pos.of_uint_acc u acc)).
Proof.
  revert acc.
  induction u as [|u IH|u IH|u IH|u IH|u IH|u IH|u IH|u IH|u IH|u IH];
    intro acc; cbn [NilEmpty.string_of_uint PyStr.int_tail Pos.of_uint_acc];
    [reflexivity|..];
    match goal with
    | |- context [PyStr.isdigit ?c] =>
        change (PyStr.isdigit c) with true; cbv iota
    end;
    match goal with
    | |- PyStr.int_tail ?z _ = Some (Z.pos (Pos.of_uint_acc _ ?a)) =>
        replace z with (Z.pos a)
          by (unfold PyStr.digit_val;
              match goal with
              | |- context [Z.of_nat ?n] =>
                  let v := eval vm_compute in (Z.of_nat n) in
                  change (Z.of_nat n) with v
              end; lia)
    end; apply IH.
Qed.

Lemma int_tail_zero (u : Decimal.uint) :
  PyStr.int_tail 0 (NilEmpty.string_of_uint u) = Some (Z.of_N (Pos.of_uint u)).
Proof.
  induction u as [|u IH|u IH|u IH|u IH|u IH|u IH|u IH|u IH|u IH|u IH];
    cbn [NilEmpty.string_of_uint PyStr.int_tail Pos.of_uint];
    [reflexivity|exact IH|..];
    match goal with
    | |- context [PyStr.isdigit ?c] =>
        change (PyStr.isdigit c) with true; cbv iota
    end;
    match goal with
    | |- PyStr.int_tail ?z _ = Some (Z.of_N (N.pos (Pos.of_uint_acc _ ?a))) =>
        replace z with (Z.pos a)
          by (unfold PyStr.digit_val;
              match goal with
              | |- context [Z.of_nat ?n] =>
                  let v := eval vm_compute in (Z.of_nat n) in
                  change (Z.of_nat n) with v
              end; lia)
    end; apply int_tail_uint.
Qed.

Lemma digit_count_uint (u : Decimal.uint) :
  PyStr.digit_count (NilEmpty.string_of_uint u) = Decimal.nb_digits u.
Proof.
  induction u; cbn [NilEmpty.string_of_uint PyStr.digit_count Decimal.nb_digits];
    [reflexivity|..];
    match goal with
    | |- context [PyStr.isdigit ?c] =>
        change (PyStr.isdigit c) with true; cbv iota
    end; now f_equal.
Qed.

Lemma int_unsigned_uint (u : Decimal.uint) :
  u <> Decimal.Nil ->
  Z.of_nat (Decimal.nb_digits u) <= PyStr.max_str_digits ->
  PyStr.int_unsigned (NilEmpty.string_of_uint u) = Some (Z.of_N (Pos.of_uint u)).
Proof.
  intros H L. apply Z.leb_le in L. rewrite <- digit_count_uint in L.
  destruct u; [contradiction|..];
    cbn [NilEmpty.string_of_uint] in L |- *; unfold PyStr.int_unsigned;
    rewrite L; cbn [Pos.of_uint];
    match goal with
    | |- context [PyStr.isdigit ?c] =>
        change (PyStr.isdigit c) with true; cbv iota
    end;
    [change (PyStr.digit_val "0") with 0; apply int_tail_zero|..];
    match goal with
    | |- PyStr.int_tail ?z _ = Some (Z.of_N (N.pos (Pos.of_uint_acc _ ?a))) =>
        change z with (Z.pos a)
    end; apply int_tail_uint.
Qed.

Lemma int_of_uint_string (u : Decimal.uint) :
  u <> Decimal.Nil ->
  Z.of_nat (Decimal.nb_digits u) <= PyStr.max_str_digits ->
  PyStr.int (NilEmpty.string_of_uint u) = Some (Z.of_N (Pos.of_uint u))
  /\ PyStr.int (String "-" (NilEmpty.string_of_uint u))
     = Some (- Z.of_N (Pos.of_uint u)).
Proof.
  intros H L.
  assert (D : all_chars (fun c => negb (PyStr.is_cspace c))
                (NilEmpty.string_of_uint u) = true)
    by (apply (all_chars_impl PyStr.isdigit); [apply digit_not_cspace|];
        apply uint_digits).
  unfold PyStr.int. split.
  - rewrite (strip_by_none _ _ D). rewrite <- (int_unsigned_uint u H L).
    destruct u; [contradiction|..]; reflexivity.
  - rewrite (strip_by_none PyStr.is_cspace (String "-" _))
      by (cbn [all_chars]; now rewrite D).
    cbv iota beta. now rewrite (int_unsigned_uint u H L).
Qed.

(** The value of a digit sequence is at least the accumulator shifted by
    the number of its digits. *)
Lemma of_uint_acc_lower (u : Decimal.uint) (acc : positive) :
  Z.pos acc * 10 ^ Z.of_nat (Decimal.nb_digits u)
  <= Z.pos (Pos.of_uint_acc u acc).
Proof.
  revert acc. induction u as [|u IH|u IH|u IH|u IH|u IH|u IH|u IH|u IH|u IH|u IH];
    intro acc; cbn [Decimal.nb_digits Pos.of_uint_acc];
    [rewrite Z.pow_0_r; lia|..];
    rewrite Nat2Z.inj_succ, Z.pow_succ_r by lia;
    match goal with
    | |- _ <= Z.pos (Pos.of_uint_acc _ ?a) =>
        pose proof (IH a) as B;
        assert (P : 0 <= 10 ^ Z.of_nat (Decimal.nb_digits u))
          by (apply Z.pow_nonneg; lia);
        assert (A : 10 * Z.pos acc <= Z.pos a) by lia
    end; nia.
Qed.

Lemma to_uint_head (p : positive) :
  exists l acc,
    Pos.to_uint p <> Decimal.Nil
    /\ Decimal.nb_digits (Pos.to_uint p) = S (Decimal.nb_digits l)
    /\ Z.pos p = Z.pos (Pos.of_uint_acc l acc).
Proof.
  pose proof (Unsigned.of_to p) as OT.
  pose proof (Unsigned.to_of (Pos.to_uint p)) as TO.
  rewrite OT in TO. cbn [N.to_uint] in TO.
  pose proof (Unsigned.to_uint_nonzero p) as NZ.
  destruct (Pos.to_uint p) as [|l|l|l|l|l|l|l|l|l|l] eqn:E;
    cbn [Pos.of_uint] in OT.
  - discriminate OT.
  - exfalso. unfold Decimal.unorm in TO. cbn [Decimal.nzhead] in TO.
    destruct (Decimal.nzhead l) as [|u|u|u|u|u|u|u|u|u|u] eqn:Hz;
      try discriminate TO.
    + injection TO as TOe. apply NZ. now rewrite <- TOe.
    + injection TO as TOe. subst u.
      now apply (DecimalFacts.nzhead_nonzero l l).
  - exists l, 1%positive. repeat split; [discriminate|congruence].
  - exists l, 2%positive. repeat split; [discriminate|congruence].
  - exists l, 3%positive. repeat split; [discriminate|congruence].
  - exists l, 4%positive. repeat split; [discriminate|congruence].
  - exists l, 5%positive. repeat split; [discriminate|congruence].
  - exists l, 6%positive. repeat split; [discriminate|congruence].
  - exists l, 7%positive. repeat split; [discriminate|congruence].
  - exists l, 8%positive. repeat split; [discriminate|congruence].
  - exists l, 9%positive. repeat split; [discriminate|congruence].
Qed.

Lemma to_uint_within (p : positive) :
  Z.pos p < 10 ^ PyStr.max_str_digits ->
  Z.of_nat (Decimal.nb_digits (Pos.to_uint p)) <= PyStr.max_str_digits.
Proof.
  intro H. destruct (to_uint_head p) as (l & acc & _ & N & V).
  rewrite N, Nat2Z.inj_succ.
  pose proof (of_uint_acc_lower l acc) as B. rewrite <- V in B.
  assert (P : 0 < 10 ^ Z.of_nat (Decimal.nb_digits l))
    by (apply Z.pow_pos_nonneg; lia).
  assert (L : 10 ^ Z.of_nat (Decimal.nb_digits l) < 10 ^ PyStr.max_str_digits)
    by nia.
  apply Z.pow_lt_mono_r_iff in L; [lia|lia|]. unfold PyStr.max_str_digits. lia.
Qed.

Lemma int_str_of_int (n : Z) :
  Z.abs n < 10 ^ PyStr.max_str_digits ->
  PyStr.int (PyStr.str_of_int n) = Some n.
Proof.
  intro B. unfold PyStr.str_of_int.
  destruct n as [|p|p]; cbn [Z.to_int NilEmpty.string_of_int].
  - reflexivity.
  - rewrite (proj1 (int_of_uint_string _ (Unsigned.to_uint_nonnil p)
                      (to_uint_within p B))).
    now rewrite Unsigned.of_to.
  - rewrite (proj2 (int_of_uint_string _ (Unsigned.to_uint_nonnil p)
                      (to_uint_within p B))).
    now rewrite Unsigned.of_to.
Qed.

Lemma digit_val_range (c : ascii) :
  PyStr.isdigit c = true -> 0 <= PyStr.digit_val c <= 9.
Proof.
  destruct c as [[] [] [] [] [] [] [] []]; intro H;
    try discriminate H; vm_compute; split; discriminate.
Qed.

Lemma int_tail_bound (m : nat) :
  forall (s : string) (acc n : Z),
    (String.length s <= m)%nat ->
    0 <= acc ->
    PyStr.int_tail acc s = Some n ->
    0 <= n < (acc + 1) * 10 ^ Z.of_nat (PyStr.digit_count s).
Proof.
  induction m as [|m IH]; intros s acc n L A H.
  - destruct s; [|cbn in L; lia]. cbn in H |- *. injection H as <-. lia.
  - destruct s as [|c s]; [cbn in H |- *; injection H as <-; lia|].
    cbn [String.length] in L. cbn [PyStr.int_tail PyStr.digit_count] in H |- *.
    destruct (PyStr.isdigit c) eqn:Dc.
    + pose proof (digit_val_range c Dc) as R.
      assert (L' : (String.length s <= m)%nat) by lia.
      assert (A' : 0 <= 10 * acc + PyStr.digit_val c) by lia.
      pose proof (IH s _ n L' A' H) as B.
      rewrite Nat2Z.inj_succ, Z.pow_succ_r by lia.
      assert (P : 0 < 10 ^ Z.of_nat (PyStr.digit_count s))
        by (apply Z.pow_pos_nonneg; lia).
      nia.
    + destruct (Ascii.eqb c "_"); [|discriminate H].
      destruct s as [|d s]; [discriminate H|].
      cbn [PyStr.digit_count]. cbn [String.length] in L.
      destruct (PyStr.isdigit d) eqn:Dd; [|discriminate H].
      pose proof (digit_val_range d Dd) as R.
      assert (L' : (String.length s <= m)%nat) by lia.
      assert (A' : 0 <= 10 * acc + PyStr.digit_val d) by lia.
      pose proof (IH s _ n L' A' H) as B.
      rewrite Nat2Z.inj_succ, Z.pow_succ_r by lia.
      assert (P : 0 < 10 ^ Z.of_nat (PyStr.digit_count s))
        by (apply Z.pow_pos_nonneg; lia).
      nia.
Qed.

Lemma int_unsigned_within (s : string) (n : Z) :
  PyStr.int_unsigned s = Some n -> 0 <= n < 10 ^ PyStr.max_str_digits.
Proof.
  unfold PyStr.int_unsigned. destruct s as [|c s]; [discriminate|].
  destruct (PyStr.isdigit c) eqn:Dc; [|discriminate].
  destruct (Z.of_nat (PyStr.digit_count (String c s)) <=? PyStr.max_str_digits)
    eqn:Cap; [|discriminate].
  intro H. apply Z.leb_le in Cap.
  cbn [PyStr.digit_count] in Cap. rewrite Dc, Nat2Z.inj_succ in Cap.
  pose proof (digit_val_range c Dc) as R.
  pose proof (int_tail_bound (String.length s) s _ n (le_n _) (proj1 R) H) as B.
  assert (P : 0 < 10 ^ Z.of_nat (PyStr.digit_count s))
    by (apply Z.pow_pos_nonneg; lia).
  assert (M : 10 ^ Z.succ (Z.of_nat (PyStr.digit_count s))
              <= 10 ^ PyStr.max_str_digits)
    by (apply Z.pow_le_mono_r; lia).
  rewrite Z.pow_succ_r in M by lia. nia.
Qed.

Lemma int_within (s : string) (n : Z) :
  PyStr.int s = Some n -> Z.abs n < 10 ^ PyStr.max_str_digits.
Proof.
  unfold PyStr.int.
  assert (U : forall t m, PyStr.int_unsigned t = Some m ->
                          Z.abs m < 10 ^ PyStr.max_str_digits)
    by (intros t m Hm; pose proof (int_unsigned_within t m Hm); lia).
  assert (O : forall t m, option_map Z.opp (PyStr.int_unsigned t) = Some m ->
                          Z.abs m < 10 ^ PyStr.max_str_digits).
  { intros t m Hm. destruct (PyStr.int_unsigned t) as [v|] eqn:E;
      [|discriminate Hm].
    injection Hm as <-. pose proof (int_unsigned_within t v E). lia. }
  destruct (PyStr.strip_by PyStr.is_cspace s) as [|c t]; [apply U|].
  destruct c as [[] [] [] [] [] [] [] []];
    first [apply U | apply O].
Qed.

(** X3. Within the interpreter's limit of 4300 digits, an integer written
    the way the report writes it is read back by the coercion of the
    parser as the same integer, whatever its sign; and every integer that
    the coercion accepts is within that limit, so that it can be written
    and read back. *)
Theorem int_of_str_round_trip (n : Z) :
  (Z.abs n < 10 ^ PyStr.max_str_digits ->
   PyStr.int (PyStr.str_of_int n) = Some n
   /\ coerce TInt (PyStr.str_of_int n) = inr (VInt n))
  /\ (forall s,
        PyStr.int s = Some n ->
        Z.abs n < 10 ^ PyStr.max_str_digits
        /\ PyStr.int (PyStr.str_of_int n) = Some n).
Proof.
  split.
  - intro B. split; [now apply int_str_of_int|].
    cbn [coerce]. now rewrite int_str_of_int.
  - intros s H. pose proof (int_within s n H) as B.
    split; [exact B|now apply int_str_of_int].
Qed.

Lemma int_of_str_round_trip_witness :
  PyStr.int (PyStr.str_of_int (-65536)) = Some (-65536)
  /\ PyStr.int (PyStr.str_of_int 443) = Some 443.
Proof.
  split.
  - apply (proj1 (int_of_str_round_trip (-65536))). vm_compute. reflexivity.
  - apply (proj2 (int_of_str_round_trip 443) " +4_43 "). reflexivity.
Defined.

(** ** What the coercions accept *)

Lemma enum_lookup_sound {E : Type} (value : E -> string) (members : list E)
  (v : string) (m : E) :
  enum_lookup value members v = Some m -> value m = v /\ In m members.
Proof.
  induction members as [|m0 ms IH]; cbn [enum_lookup]; [discriminate|].
  destruct (String.eqb (value m0) v) eqn:E0.
  - intros [= <-]. apply String.eqb_eq in E0. split; [assumption|now left].
  - intro H. destruct (IH H). split; [assumption|now right].
Qed.

Lemma enum_calls_iff :
  (forall v p, IANAProtocolNum_call v = Some p <-> v = IANAProtocolNum_value p)
  /\ (forall v a, Action_call v = Some a <-> v = Action_value a)
  /\ (forall v l, LogStatus_call v = Some l <-> v = LogStatus_value l).
Proof.
  split; [|split]; intros v m; split.
  - intro H. symmetry. apply (enum_lookup_sound _ _ _ _ H).
  - intros ->. destruct m; reflexivity.
  - intro H. symmetry. apply (enum_lookup_sound _ _ _ _ H).
  - intros ->. destruct m; reflexivity.
  - intro H. symmetry. apply (enum_lookup_sound _ _ _ _ H).
  - intros ->. destruct m; reflexivity.
Qed.

(** X6. An enumeration call succeeds on the declared value texts and on
    nothing else, and gives back the member with that value: the three
    enumerations are read case-sensitively and without trimming, so that
    a lowered or padded spelling is refused. *)
Theorem enum_calls_exact :
  (forall v p, IANAProtocolNum_call v = Some p <-> v = IANAProtocolNum_value p)
  /\ (forall v a, Action_call v = Some a <-> v = Action_value a)
  /\ (forall v l, LogStatus_call v = Some l <-> v = LogStatus_value l)
  /\ (forall a, Action_call (PyStr.lower (Action_value a)) = None
                \/ a = Action_UNKNOWN)
  /\ (forall p, IANAProtocolNum_call (" " ++ IANAProtocolNum_value p)%string
                = None).
Proof.
  destruct enum_calls_iff as (H1 & H2 & H3).
  split; [exact H1|]. split; [exact H2|]. split; [exact H3|]. split.
  - intros []; [left; reflexivity|left; reflexivity|right; reflexivity].
  - intros []; reflexivity.
Qed.

Lemma accepted_length {R : Type} (recordCls : RecordCls R)
  (parts : list string) (r : R) :
  accepted recordCls parts = Some r ->
  List.length parts = List.length (cls_annotations recordCls).
Proof.
  intro H.
  destruct (Nat.eq_dec (List.length parts)
              (List.length (cls_annotations recordCls))) as [E|E]; [exact E|].
  rewrite (accepted_wrong_count recordCls parts E) in H. discriminate.
Qed.

(** X7. A list of fields gives a tag record exactly when it has three
    fields of which the first reads as an integer; the record holds that
    integer and the other two fields as they stand. *)
Theorem tag_record_accepted (parts : list string) (r : TagRecord.t) :
  accepted TagRecordCls parts = Some r
  <-> exists port,
        parts = [port; TagRecord.protocol r; TagRecord.tag r]
        /\ PyStr.int port = Some (TagRecord.dstPort r).
Proof.
  split.
  - intro H. pose proof (accepted_length _ _ _ H) as L.
    destruct parts as [|a [|b [|c [|d parts]]]]; try discriminate L.
    unfold accepted, genRecord_step in H.
    cbn [List.length TagRecordCls cls_annotations Nat.eqb negb coerce_all coerce]
      in H.
    destruct (PyStr.int a) as [n|] eqn:I; [|discriminate H].
    cbn [cls_init fst] in H. injection H as <-. exists a. auto.
  - intros (port & -> & I). destruct r as [n p t]. cbn [TagRecord.dstPort
      TagRecord.protocol TagRecord.tag] in *.
    unfold accepted, genRecord_step.
    cbn [List.length TagRecordCls cls_annotations Nat.eqb negb coerce_all coerce].
    now rewrite I.
Qed.

(** X8. A list of fields gives a flow record exactly when it has fourteen
    fields, the seven integer fields read as integers and the protocol,
    action and status fields are declared value texts; the record holds
    those integers, the members with those values and the four text
    fields as they stand. *)
Theorem flow_record_accepted (parts : list string) (r : FlowLogRecordV2.t) :
  accepted FlowLogRecordV2Cls parts = Some r
  <-> exists version srcPort dstPort packets numBytes startTime endTime,
        parts
        = [version; FlowLogRecordV2.accountId r; FlowLogRecordV2.interfaceId r;
           FlowLogRecordV2.srcAddr r; FlowLogRecordV2.dstAddr r;
           srcPort; dstPort;
           IANAProtocolNum_value (FlowLogRecordV2.protocol r);
           packets; numBytes; startTime; endTime;
           Action_value (FlowLogRecordV2.action r);
           LogStatus_value (FlowLogRecordV2.logStatus r)]
        /\ PyStr.int version = Some (FlowLogRecordV2.version r)
        /\ PyStr.int srcPort = Some (FlowLogRecordV2.srcPort r)
        /\ PyStr.int dstPort = Some (FlowLogRecordV2.dstPort r)
        /\ PyStr.int packets = Some (FlowLogRecordV2.packets r)
        /\ PyStr.int numBytes = Some (FlowLogRecordV2.numBytes r)
        /\ PyStr.int startTime = Some (FlowLogRecordV2.startTimeSecs r)
        /\ PyStr.int endTime = Some (FlowLogRecordV2.endTimeSecs r).
Proof.
  destruct enum_calls_iff as (EP & EA & EL).
  split.
  - intro H. pose proof (accepted_length _ _ _ H) as L.
    change (List.length (cls_annotations FlowLogRecordV2Cls)) with 14%nat in L.
    do 14 (destruct parts as [|? parts]; [cbn in L; discriminate L|]).
    destruct parts; [|cbn in L; discriminate L]. clear L.
    unfold accepted, genRecord_step in H.
    cbn [List.length FlowLogRecordV2Cls cls_annotations Nat.eqb negb
         coerce_all coerce] in H.
    repeat match type of H with
           | context [match PyStr.int ?v with _ => _ end] =>
               destruct (PyStr.int v) eqn:?; [|discriminate H]
           | context [IANAProtocolNum_call ?v] =>
               destruct (IANAProtocolNum_call v) eqn:CP; [|discriminate H]
           | context [Action_call ?v] =>
               destruct (Action_call v) eqn:CA; [|discriminate H]
           | context [LogStatus_call ?v] =>
               destruct (LogStatus_call v) eqn:CL; [|discriminate H]
           end.
    cbn [cls_init fst] in H. injection H as <-.
    apply EP in CP. apply EA in CA. apply EL in CL. subst.
    cbn [FlowLogRecordV2.version FlowLogRecordV2.accountId
         FlowLogRecordV2.interfaceId FlowLogRecordV2.srcAddr
         FlowLogRecordV2.dstAddr FlowLogRecordV2.srcPort
         FlowLogRecordV2.dstPort FlowLogRecordV2.protocol
         FlowLogRecordV2.packets FlowLogRecordV2.numBytes
         FlowLogRecordV2.startTimeSecs FlowLogRecordV2.endTimeSecs
         FlowLogRecordV2.action FlowLogRecordV2.logStatus].
    do 7 eexists. split; [reflexivity|]. repeat split; assumption.
  - intros (v0 & v5 & v6 & v8 & v9 & v10 & v11 & -> & I0 & I5 & I6 & I8 & I9
            & I10 & I11).
    destruct r. cbn [FlowLogRecordV2.version FlowLogRecordV2.accountId
         FlowLogRecordV2.interfaceId FlowLogRecordV2.srcAddr
         FlowLogRecordV2.dstAddr FlowLogRecordV2.srcPort
         FlowLogRecordV2.dstPort FlowLogRecordV2.protocol
         FlowLogRecordV2.packets FlowLogRecordV2.numBytes
         FlowLogRecordV2.startTimeSecs FlowLogRecordV2.endTimeSecs
         FlowLogRecordV2.action FlowLogRecordV2.logStatus] in *.
    unfold accepted, genRecord_step.
    cbn [List.length FlowLogRecordV2Cls cls_annotations Nat.eqb negb
         coerce_all coerce].
    rewrite I0, I5, I6, I8, I9, I10, I11.
    rewrite (proj2 (EP _ _) eq_refl), (proj2 (EA _ _) eq_refl),
      (proj2 (EL _ _) eq_refl).
    reflexivity.
Qed.

(** ** The parser, line by line *)

(** X1. The first line of a file is never parsed, whatever it holds, and
    every other line is parsed on its own: the records of a file are the
    records of its data lines in file order, so that cutting the data
    lines in two cuts the records in two. A file with a header alone, or
    with nothing at all, yields no record and a summary of zeros. *)
Theorem parser_line_by_line {R : Type} (recordCls : RecordCls R)
  (lineLambda : string -> string) (h h' : string) (a b : list string) :
  yielded (genRecord (h :: a ++ b) recordCls lineLambda)
  = yielded (genRecord (h :: a) recordCls lineLambda)
    ++ yielded (genRecord (h' :: b) recordCls lineLambda)
  /\ yielded (genRecord (h :: a) recordCls lineLambda)
     = yielded (genRecord (h' :: a) recordCls lineLambda)
  /\ genRecord [h] recordCls lineLambda
     = [Log (INFO, CsvHeader (PyStr.strip h));
        Log (INFO, Completed (cls_name recordCls) 0 0 0)]
  /\ genRecord [] recordCls lineLambda
     = [Log (INFO, CsvHeader EmptyString);
        Log (INFO, Completed (cls_name recordCls) 0 0 0)].
Proof.
  rewrite !yielded_genRecord. unfold data_fields. cbn [tl].
  rewrite map_app, records_of_app. repeat split.
Qed.

(** ** The order of the table *)

Lemma existsb_keys (k : Key) (tbl : TagTable) :
  existsb (key_eqb k) (dict_keys tbl) = dict_mem key_eqb k tbl.
Proof.
  unfold dict_mem.
  induction tbl as [|[k' v] tbl IH]; cbn [dict_keys map existsb dict_get fst];
    [reflexivity|].
  destruct (key_eqb k' k) eqn:E.
  - apply key_eqb_eq in E. subst k'.
    now rewrite (proj2 (key_eqb_eq k k) eq_refl).
  - destruct (key_eqb k k') eqn:E'.
    + apply key_eqb_eq in E'. subst k'.
      rewrite (proj2 (key_eqb_eq k k) eq_refl) in E. discriminate.
    + exact IH.
Qed.

Lemma store_all_keys (rs : list TagRecord.t) (tbl : TagTable) :
  dict_keys (fold_left store rs tbl)
  = dict_keys tbl ++ first_seen (map tag_key rs) (dict_keys tbl).
Proof.
  revert tbl. induction rs as [|r rs IH]; intro tbl;
    cbn [fold_left map first_seen].
  - now rewrite app_nil_r.
  - rewrite IH, existsb_keys. unfold store, dict_mem.
    destruct (dict_get key_eqb (tag_key r) tbl) as [v|] eqn:G.
    + now rewrite (dict_keys_set_present key_eqb _ _ v _ G).
    + rewrite (dict_keys_set_absent key_eqb _ _ _ G).
      now rewrite <- app_assoc.
Qed.

Lemma existsb_key_In (k : Key) (l : list Key) :
  existsb (key_eqb k) l = true <-> In k l.
Proof.
  rewrite existsb_exists. split.
  - intros (x & Hx & E). apply key_eqb_eq in E. now subst.
  - intro H. exists k. split; [assumption|]. now apply key_eqb_eq.
Qed.

Lemma first_seen_In (ks seen : list Key) (k : Key) :
  In k (first_seen ks seen) <-> In k ks /\ ~ In k seen.
Proof.
  revert seen. induction ks as [|k0 ks IH]; intro seen; cbn [first_seen In].
  - tauto.
  - destruct (existsb (key_eqb k0) seen) eqn:E.
    + apply existsb_key_In in E. rewrite IH. split.
      * tauto.
      * intros [[->|H] Hn]; [contradiction|tauto].
    + assert (Hn : ~ In k0 seen).
      { intro H. apply existsb_key_In in H. congruence. }
      cbn [In]. rewrite IH, in_app_iff. cbn [In]. split.
      * intros [->|[H Hs]]; [tauto|]. split; [tauto|]. tauto.
      * intros [[->|H] Hs]; [tauto|].
        destruct (key_eqb k0 k) eqn:E'.
        -- apply key_eqb_eq in E'. tauto.
        -- right. split; [assumption|]. intros [H'|[H'|[]]]; [tauto|].
           subst. rewrite (proj2 (key_eqb_eq k k) eq_refl) in E'. discriminate.
Qed.

(** X9. The keys of the table stand in the order in which the mapping
    file first names them; a later line with a key already seen changes
    the value, not the place. The keys are those of the yielded tag
    records and no others, each once. *)
Theorem table_order_first_occurrence (tagFile : File) :
  dict_keys (tagMappings (build initial tagFile))
  = first_seen (map tag_key (yielded (tag_events tagFile))) []
  /\ NoDup (dict_keys (tagMappings (build initial tagFile)))
  /\ (forall k,
        In k (dict_keys (tagMappings (build initial tagFile)))
        <-> exists r, In r (yielded (tag_events tagFile)) /\ tag_key r = k).
Proof.
  destruct (build_fold (tag_events tagFile) initial) as (B1 & _).
  fold (build initial tagFile) in B1. cbn [initial tagMappings] in B1.
  assert (K : dict_keys (tagMappings (build initial tagFile))
              = first_seen (map tag_key (yielded (tag_events tagFile))) []).
  { rewrite B1, store_all_keys. reflexivity. }
  split; [exact K|]. split.
  - rewrite B1. apply store_all_NoDup. constructor.
  - intro k. rewrite K, first_seen_In, in_map_iff. split.
    + intros [(r & E & Hr) _]. eauto.
    + intros (r & Hr & E). split; [eauto|tauto].
Qed.

(** ** The aggregation pass in closed form *)

Lemma hits_nil (k : Key) : hits k [] = 0.
Proof. reflexivity. Qed.

Lemma add_hits_other (r : FlowLogRecordV2.t) (l : TagTable) :
  (forall e, In e l -> fst e <> flow_key r) -> map (add_hits [r]) l = l.
Proof.
  intro H. induction l as [|[k [t c]] l IH]; [reflexivity|].
  cbn [map]. rewrite IH by (intros e He; apply H; now right).
  f_equal. unfold add_hits. cbn [fst snd]. rewrite hits_cons, hits_nil.
  destruct (key_eqb (flow_key r) k) eqn:E.
  - apply key_eqb_eq in E. exfalso. apply (H (k, (t, c))); [now left|].
    now rewrite E.
  - now rewrite !Z.add_0_r.
Qed.

Lemma not_key_entries (k : Key) (l : TagTable) :
  ~ In k (dict_keys l) -> forall e, In e l -> fst e <> k.
Proof.
  intros H e He E. apply H. rewrite <- E. now apply in_map.
Qed.

Lemma bump_closed (r : FlowLogRecordV2.t) (tbl : TagTable) :
  NoDup (dict_keys tbl) ->
  dict_mem key_eqb (flow_key r) tbl = true ->
  bump (flow_key r) tbl = map (add_hits [r]) tbl.
Proof.
  unfold bump, dict_mem.
  destruct (dict_get key_eqb (flow_key r) tbl) as [[t c]|] eqn:G;
    [|discriminate].
  intros Hnd _. revert G.
  induction tbl as [|[k' [t' c']] tbl IH]; cbn [dict_get]; [discriminate|].
  apply NoDup_cons_iff in Hnd. destruct Hnd as [Hnotin Hnd].
  cbn [dict_set map]. destruct (key_eqb k' (flow_key r)) eqn:E.
  - intros [= -> ->]. apply key_eqb_eq in E. subst k'.
    rewrite (add_hits_other r tbl (not_key_entries _ _ Hnotin)).
    f_equal. unfold add_hits. cbn [fst snd]. rewrite hits_cons, hits_nil.
    now rewrite (proj2 (key_eqb_eq _ _) eq_refl).
  - intro G. rewrite (IH Hnd G). f_equal.
    unfold add_hits. cbn [fst snd]. rewrite hits_cons, hits_nil.
    destruct (key_eqb (flow_key r) k') eqn:E'.
    + apply key_eqb_eq in E'. subst k'.
      rewrite (proj2 (key_eqb_eq _ _) eq_refl) in E. discriminate.
    + now rewrite !Z.add_0_r.
Qed.

Lemma tally_closed (r : FlowLogRecordV2.t) (tbl : TagTable) (u : Z) :
  NoDup (dict_keys tbl) ->
  tally (tbl, u) r = (map (add_hits [r]) tbl, u + misses tbl [r]).
Proof.
  intro Hnd. unfold tally, misses. cbn [fst snd filter].
  destruct (dict_mem key_eqb (flow_key r) tbl) eqn:M; cbn [negb List.length].
  - rewrite (bump_closed r tbl Hnd M). now rewrite Z.add_0_r.
  - f_equal. symmetry. apply add_hits_other. apply not_key_entries.
    apply (dict_get_None_keys key_eqb key_eqb_eq). unfold dict_mem in M.
    now destruct (dict_get key_eqb (flow_key r) tbl).
Qed.

Lemma add_hits_keys (rs : list FlowLogRecordV2.t) (tbl : TagTable) :
  dict_keys (map (add_hits rs) tbl) = dict_keys tbl.
Proof. unfold dict_keys. rewrite map_map. reflexivity. Qed.

Lemma add_hits_mem (rs : list FlowLogRecordV2.t) (tbl : TagTable) (k : Key) :
  dict_mem key_eqb k (map (add_hits rs) tbl) = dict_mem key_eqb k tbl.
Proof.
  unfold dict_mem.
  induction tbl as [|[k' [t c]] tbl IH]; cbn [map dict_get add_hits fst snd];
    [reflexivity|].
  destruct (key_eqb k' k); [reflexivity|exact IH].
Qed.

Lemma misses_cons (tbl : TagTable) (r : FlowLogRecordV2.t)
  (rs : list FlowLogRecordV2.t) :
  misses tbl (r :: rs) = misses tbl [r] + misses tbl rs.
Proof.
  unfold misses. cbn [filter].
  destruct (negb (dict_mem key_eqb (flow_key r) tbl)); cbn [List.length]; lia.
Qed.

Lemma misses_add_hits (rs' : list FlowLogRecordV2.t) (tbl : TagTable)
  (rs : list FlowLogRecordV2.t) :
  misses (map (add_hits rs') tbl) rs = misses tbl rs.
Proof.
  unfold misses. do 2 f_equal. apply filter_ext. intro r.
  now rewrite add_hits_mem.
Qed.

Lemma tally_all_closed (rs : list FlowLogRecordV2.t) (tbl : TagTable) (u : Z) :
  NoDup (dict_keys tbl) ->
  fold_left tally rs (tbl, u) = (map (add_hits rs) tbl, u + misses tbl rs).
Proof.
  revert tbl u. induction rs as [|r rs IH]; intros tbl u Hnd; cbn [fold_left].
  - f_equal.
    + symmetry. rewrite <- (map_id tbl) at 2. apply map_ext.
      intros [k [t c]]. unfold add_hits. cbn [fst snd].
      now rewrite hits_nil, Z.add_0_r.
    + unfold misses. cbn. lia.
  - rewrite (tally_closed r tbl u Hnd).
    rewrite IH by (now rewrite add_hits_keys).
    rewrite misses_add_hits, (misses_cons tbl r rs). f_equal; [|lia].
    rewrite map_map. apply map_ext. intros [k [t c]].
    unfold add_hits. cbn [fst snd].
    rewrite (hits_cons k r rs), (hits_cons k r []), hits_nil.
    f_equal. f_equal. lia.
Qed.

(** X10. From a table with one entry per key, the aggregation pass leaves
    the entries in their places with their keys and tag records, adds to
    each counter the number of yielded flow records with that key, and
    adds to the untagged counter the number of those whose key the table
    lacks. *)
Theorem aggregate_closed_form (st : State) (flowFile : File) :
  NoDup (dict_keys (tagMappings st)) ->
  tagMappings (aggregate st flowFile)
  = map (add_hits (yielded (flow_events flowFile))) (tagMappings st)
  /\ untaggedCounter (aggregate st flowFile)
     = untaggedCounter st
       + misses (tagMappings st) (yielded (flow_events flowFile)).
Proof.
  intro Hnd. unfold aggregate.
  destruct (aggregate_fold (flow_events flowFile) st) as [H _].
  rewrite (tally_all_closed _ _ _ Hnd) in H. now injection H.
Qed.

Lemma aggregate_closed_form_witness :
  tagMappings (aggregate sample_state sample_flow_file)
  = map (add_hits (yielded (flow_events sample_flow_file)))
      (tagMappings sample_state).
Proof.
  refine (proj1 (aggregate_closed_form sample_state sample_flow_file _)).
  repeat constructor. cbn. tauto.
Defined.

Lemma run_closed (flowFile tagFile : File) :
  tagMappings (run flowFile tagFile)
  = map (add_hits (yielded (flow_events flowFile)))
      (tagMappings (build initial tagFile))
  /\ untaggedCounter (run flowFile tagFile)
     = misses (tagMappings (build initial tagFile))
         (yielded (flow_events flowFile))
  /\ all_zero (tagMappings (build initial tagFile)).
Proof.
  destruct (build_fold (tag_events tagFile) initial) as (B1 & B2 & _).
  fold (build initial tagFile) in B1, B2.
  cbn [initial tagMappings untaggedCounter] in B1, B2.
  assert (Hnd : NoDup (dict_keys (tagMappings (build initial tagFile))))
    by (rewrite B1; apply store_all_NoDup; constructor).
  assert (Hz : all_zero (tagMappings (build initial tagFile)))
    by (rewrite B1; apply build_all_zero; constructor).
  pose proof (aggregate_fold (flow_events flowFile) (build initial tagFile))
    as [H _].
  fold (aggregate (build initial tagFile) flowFile) in H.
  fold (run flowFile tagFile) in H.
  rewrite (tally_all_closed _ _ _ Hnd), B2 in H. injection H as H1 H2.
  auto.
Qed.

(** X11. For the two files as a whole: every counter of the final table
    is the number of yielded flow records with the entry's key, and the
    untagged counter is the number of yielded flow records whose key no
    mapping line has; all of them are non-negative. *)
Theorem run_counts_exact (flowFile tagFile : File) :
  tagMappings (run flowFile tagFile)
  = map (add_hits (yielded (flow_events flowFile)))
      (tagMappings (build initial tagFile))
  /\ (forall k t c,
        In (k, (t, c)) (tagMappings (run flowFile tagFile)) ->
        c = hits k (yielded (flow_events flowFile)) /\ 0 <= c)
  /\ untaggedCounter (run flowFile tagFile)
     = misses (tagMappings (build initial tagFile))
         (yielded (flow_events flowFile))
  /\ 0 <= untaggedCounter (run flowFile tagFile).
Proof.
  destruct (run_closed flowFile tagFile) as (H1 & H2 & Hz).
  split; [exact H1|]. split; [|split; [exact H2|]].
  - intros k t c Hin. rewrite H1 in Hin. apply in_map_iff in Hin.
    destruct Hin as ([k0 [t0 c0]] & E & Hin0).
    unfold add_hits in E. cbn [fst snd] in E. injection E as <- <- <-.
    unfold all_zero in Hz. rewrite Forall_forall in Hz.
    pose proof (Hz _ Hin0) as Hc. cbn [snd] in Hc. subst c0.
    split; [reflexivity|]. unfold hits. lia.
  - rewrite H2. unfold misses. lia.
Qed.

Lemma run_counts_exact_witness :
  In ((25, "tcp"), (TagRecord.mk 25 "tcp" "mail", 1))
    (tagMappings (run sample_flow_file sample_tag_file))
  /\ 1 = hits (25, "tcp") (yielded (flow_events sample_flow_file)).
Proof.
  assert (Hin : In ((25, "tcp"), (TagRecord.mk 25 "tcp" "mail", 1))
                  (tagMappings (run sample_flow_file sample_tag_file)))
    by (vm_compute; tauto).
  split; [exact Hin|].
  exact (proj1 (proj1 (proj2 (run_counts_exact sample_flow_file sample_tag_file))
                  (25, "tcp") (TagRecord.mk 25 "tcp" "mail") 1 Hin)).
Defined.

(** ** What the aggregation pass does not depend on *)

Lemma hits_perm (k : Key) (rs rs' : list FlowLogRecordV2.t) :
  Permutation rs rs' -> hits k rs = hits k rs'.
Proof.
  induction 1 as [|r rs rs' _ IH|r1 r2 rs|rs1 rs2 rs3 _ IH1 _ IH2].
  - reflexivity.
  - now rewrite !(hits_cons k r), IH.
  - rewrite !hits_cons. lia.
  - congruence.
Qed.

Lemma misses_perm (tbl : TagTable) (rs rs' : list FlowLogRecordV2.t) :
  Permutation rs rs' -> misses tbl rs = misses tbl rs'.
Proof.
  induction 1 as [|r rs rs' _ IH|r1 r2 rs|rs1 rs2 rs3 _ IH1 _ IH2].
  - reflexivity.
  - now rewrite (misses_cons tbl r rs), (misses_cons tbl r rs'), IH.
  - rewrite (misses_cons tbl r2 (r1 :: rs)), (misses_cons tbl r1 rs),
      (misses_cons tbl r1 (r2 :: rs)), (misses_cons tbl r2 rs). lia.
  - congruence.
Qed.

(** X12. The order of the data lines of the flow log is of no account to
    the counters: two flow logs whose data lines are a rearrangement of
    one another end in the same table and the same untagged counter. *)
Theorem flow_line_order_irrelevant (tagFile : File) (h h' : string)
  (d d' : list string) :
  Permutation d d' ->
  tagMappings (run (h :: d) tagFile) = tagMappings (run (h' :: d') tagFile)
  /\ untaggedCounter (run (h :: d) tagFile)
     = untaggedCounter (run (h' :: d') tagFile).
Proof.
  intro P.
  assert (PR : Permutation (yielded (flow_events (h :: d)))
                 (yielded (flow_events (h' :: d')))).
  { unfold flow_events. rewrite !yielded_genRecord. unfold data_fields, records_of.
    cbn [tl]. apply Permutation_flat_map. now apply Permutation_map. }
  destruct (run_closed (h :: d) tagFile) as (T1 & U1 & _).
  destruct (run_closed (h' :: d') tagFile) as (T2 & U2 & _).
  rewrite T1, T2, U1, U2. split.
  - apply map_ext. intros [k [t c]]. unfold add_hits. cbn [fst snd].
    now rewrite (hits_perm k _ _ PR).
  - now apply misses_perm.
Qed.

Lemma flow_line_order_irrelevant_witness :
  tagMappings
    (run ["h"; "2,a,e,s,d,1,80,6,1,1,1,1,ACCEPT,OK";
          "2,a,e,s,d,1,25,6,1,1,1,1,ACCEPT,OK"] sample_tag_file)
  = tagMappings
      (run ["h"; "2,a,e,s,d,1,25,6,1,1,1,1,ACCEPT,OK";
            "2,a,e,s,d,1,80,6,1,1,1,1,ACCEPT,OK"] sample_tag_file).
Proof.
  apply (proj1 (flow_line_order_irrelevant sample_tag_file "h" "h" _ _
                  (perm_swap _ _ []))).
Defined.

Lemma tally_key_only (acc : TagTable * Z) (r r' : FlowLogRecordV2.t) :
  flow_key r = flow_key r' -> tally acc r = tally acc r'.
Proof. intro E. unfold tally. now rewrite E. Qed.

Lemma tally_all_key_only (rs rs' : list FlowLogRecordV2.t) (acc : TagTable * Z) :
  map flow_key rs = map flow_key rs' ->
  fold_left tally rs acc = fold_left tally rs' acc.
Proof.
  revert rs' acc. induction rs as [|r rs IH]; intros [|r' rs'] acc E;
    try discriminate E; [reflexivity|].
  cbn [map] in E.
  assert (E1 := f_equal (hd (flow_key r)) E).
  assert (E2 := f_equal (@tl Key) E).
  cbn [hd tl] in E1, E2. cbn [fold_left].
  rewrite (tally_key_only acc r r' E1). now apply IH.
Qed.

(** X13. The aggregation pass looks at the destination port and the
    protocol of a flow record and at nothing else: two flow logs whose
    yielded records agree on these, one after the other, end in the same
    table and untagged counter, whatever their addresses, packet and byte
    counts, times, action and status. *)
Theorem aggregate_reads_key_only (st : State) (f g : File) :
  map flow_key (yielded (flow_events f))
  = map flow_key (yielded (flow_events g)) ->
  tagMappings (aggregate st f) = tagMappings (aggregate st g)
  /\ untaggedCounter (aggregate st f) = untaggedCounter (aggregate st g).
Proof.
  intro E. unfold aggregate.
  destruct (aggregate_fold (flow_events f) st) as [Hf _].
  destruct (aggregate_fold (flow_events g) st) as [Hg _].
  rewrite (tally_all_key_only _ _ _ E) in Hf. rewrite <- Hg in Hf.
  now injection Hf.
Qed.

Lemma aggregate_reads_key_only_witness :
  tagMappings
    (aggregate sample_state ["h"; "2,a,e,s,d,1,25,6,1,1,1,1,ACCEPT,OK"])
  = tagMappings
      (aggregate sample_state
         ["h"; "3,acct,eni,10.1.1.1,10.2.2.2,443,25,6,9,999,5,6,REJECT,NODATA"]).
Proof.
  apply (proj1 (aggregate_reads_key_only sample_state
                  ["h"; "2,a,e,s,d,1,25,6,1,1,1,1,ACCEPT,OK"]
                  ["h"; "3,acct,eni,10.1.1.1,10.2.2.2,443,25,6,9,999,5,6,REJECT,NODATA"]
                  eq_refl)).
Defined.

(** ** Counters only grow *)

Lemma hits_app (k : Key) (a b : list FlowLogRecordV2.t) :
  hits k (a ++ b) = hits k a + hits k b.
Proof. unfold hits. rewrite filter_app, length_app. lia. Qed.

Lemma misses_app (tbl : TagTable) (a b : list FlowLogRecordV2.t) :
  misses tbl (a ++ b) = misses tbl a + misses tbl b.
Proof. unfold misses. rewrite filter_app, length_app. lia. Qed.

Lemma add_hits_grow (ra rb : list FlowLogRecordV2.t) (tbl : TagTable) :
  Forall2
    (fun before after =>
       fst after = fst before
       /\ fst (snd after) = fst (snd before)
       /\ snd (snd before) <= snd (snd after))
    (map (add_hits ra) tbl) (map (add_hits (ra ++ rb)) tbl).
Proof.
  induction tbl as [|[k [t c]] tbl IH]; cbn [map]; [constructor|].
  constructor; [|exact IH].
  unfold add_hits. cbn [fst snd]. rewrite hits_app.
  split; [reflexivity|]. split; [reflexivity|]. unfold hits. lia.
Qed.

(** X14. Reading more flow lines never lowers a counter: with further
    data lines appended to the flow log, the final table has the same
    keys and tag records in the same places, every counter is at least
    what it was, and so is the untagged counter. *)
Theorem counters_only_grow (tagFile : File) (h : string) (a b : list string) :
  Forall2
    (fun before after =>
       fst after = fst before
       /\ fst (snd after) = fst (snd before)
       /\ snd (snd before) <= snd (snd after))
    (tagMappings (run (h :: a) tagFile))
    (tagMappings (run (h :: a ++ b) tagFile))
  /\ untaggedCounter (run (h :: a) tagFile)
     <= untaggedCounter (run (h :: a ++ b) tagFile).
Proof.
  destruct (run_closed (h :: a) tagFile) as (T1 & U1 & _).
  destruct (run_closed (h :: a ++ b) tagFile) as (T2 & U2 & _).
  assert (Y : yielded (flow_events (h :: a ++ b))
              = yielded (flow_events (h :: a))
                ++ yielded (flow_events (h :: b))).
  { unfold flow_events. rewrite !yielded_genRecord. unfold data_fields.
    cbn [tl]. now rewrite map_app, records_of_app. }
  rewrite T1, T2, U1, U2, Y. split.
  - apply add_hits_grow.
  - rewrite misses_app. unfold misses. lia.
Qed.

(** ** The two sections of the report agree *)

Lemma sum_values_set (t : string) (v : Z) (d : list (string * Z)) :
  sum_values (dict_set String.eqb t v d) = sum_values d + v - count_of t d.
Proof.
  unfold count_of.
  induction d as [|[t' c'] d IH]; cbn [dict_set dict_get sum_values fold_right snd].
  - lia.
  - destruct (String.eqb t' t); cbn [sum_values fold_right snd].
    + lia.
    + fold (sum_values (dict_set String.eqb t v d)). fold (sum_values d).
      rewrite IH. lia.
Qed.

Lemma sum_values_add (t : string) (n : Z) (acc : list (string * Z)) :
  sum_values (tagCounts_add t n acc) = sum_values acc + n.
Proof.
  unfold tagCounts_add.
  destruct (dict_get String.eqb t acc) as [c|] eqn:G;
    rewrite sum_values_set; unfold count_of; rewrite G; lia.
Qed.

Lemma sum_values_fold (l : TagTable) (acc : list (string * Z)) :
  sum_values (fold_left tagCounts_step l acc) = sum_values acc + sum_counts l.
Proof.
  revert acc. induction l as [|[k [t c]] l IH]; intro acc;
    cbn [fold_left sum_counts fold_right snd].
  - lia.
  - rewrite IH. unfold tagCounts_step. cbn [fst snd].
    rewrite sum_values_add. fold (sum_counts l). lia.
Qed.

Lemma length_dict_set {K V : Type} (eqb : K -> K -> bool) (k : K) (v : V)
  (d : list (K * V)) :
  (List.length (dict_set eqb k v d) <= S (List.length d))%nat.
Proof.
  induction d as [|[k' v'] d IH]; cbn [dict_set List.length]; [lia|].
  destruct (eqb k' k); cbn [List.length]; lia.
Qed.

Lemma length_tagCounts_fold (l : TagTable) (acc : list (string * Z)) :
  (List.length (fold_left tagCounts_step l acc)
   <= List.length acc + List.length l)%nat.
Proof.
  revert acc. induction l as [|e l IH]; intro acc; cbn [fold_left List.length];
    [lia|].
  pose proof (IH (tagCounts_step acc e)) as H.
  assert (L : (List.length (tagCounts_step acc e) <= S (List.length acc))%nat).
  { unfold tagCounts_step, tagCounts_add.
    destruct (dict_get String.eqb _ acc); apply length_dict_set. }
  lia.
Qed.

(** X15. In the report of a table with one entry per key, the counts of
    the first section add up to the counts of the second: grouping by tag
    loses and invents nothing. The first section has at most as many
    lines as the second, and the report has three lines more than the two
    together. *)
Theorem report_sections_agree (tbl : TagTable) (untagged : Z) :
  NoDup (dict_keys tbl) ->
  sum_values (tagCounts_of tbl) = sum_counts tbl
  /\ (List.length (tagCounts_of tbl) <= List.length tbl)%nat
  /\ List.length (report_writes tbl untagged)
     = (List.length (tagCounts_of tbl) + List.length tbl + 3)%nat.
Proof.
  intro Hnd. destruct (tagCounts_of_entries tbl Hnd) as [T1 _].
  split; [|split].
  - rewrite T1, sum_values_fold. reflexivity.
  - rewrite T1. apply (length_tagCounts_fold tbl []).
  - unfold report_writes. cbn [List.length].
    rewrite length_app. cbn [List.length].
    rewrite length_app, !length_map. cbn [List.length].
    unfold dict_keys. rewrite length_map. lia.
Qed.

Lemma report_sections_agree_witness :
  sum_values (tagCounts_of (tagMappings (run sample_flow_file sample_tag_file)))
  = sum_counts (tagMappings (run sample_flow_file sample_tag_file)).
Proof.
  apply (proj1 (report_sections_agree
                  (tagMappings (run sample_flow_file sample_tag_file)) 0
                  (run_NoDup sample_flow_file sample_tag_file))).
Defined.

(** X16. For the two files as a whole, the counts of the first section of
    the report and the untagged count add up to the number of flow
    records that the parser yielded. *)
Theorem report_accounts_for_every_record (flowFile tagFile : File) :
  sum_values (tagCounts_of (tagMappings (run flowFile tagFile)))
  + untaggedCounter (run flowFile tagFile)
  = Z.of_nat (List.length (yielded (flow_events flowFile))).
Proof.
  destruct (tagCounts_of_entries _ (run_NoDup flowFile tagFile)) as [T1 _].
  rewrite T1, sum_values_fold. cbn [sum_values fold_right].
  pose proof (run_unfold flowFile tagFile) as H.
  pose proof (tally_all_total (yielded (flow_events flowFile))
                (fold_left store (yielded (tag_events tagFile)) [], 0)) as T.
  rewrite <- H in T. cbn [fst snd] in T.
  rewrite (all_zero_sum _ (build_all_zero _ [] (Forall_nil _))) in T. lia.
Qed.

(** ** The log of the second loop *)

Lemma step_not_flow_seen {R : Type} (recordCls : RecordCls R)
  (parts : list string) (c s : Z) (e : LogEntry) :
  fst (fst (genRecord_step recordCls parts c s)) = Log e ->
  is_flow_seen e = false.
Proof.
  destruct (genRecord_step_cases recordCls parts c s)
    as [[_ E]|[[_ [err E]]|[_ [r E]]]]; rewrite E; cbn [fst];
    intro H; [| |discriminate H]; injection H as <-; reflexivity.
Qed.

Lemma loop_not_flow_seen {R : Type} (recordCls : RecordCls R)
  (fields : list (list string)) (c s : Z) :
  Forall (fun e => is_flow_seen e = false)
    (logged (genRecord_loop recordCls (map Yield fields) c s)).
Proof.
  revert c s. induction fields as [|parts fields IH]; intros c s;
    cbn [map genRecord_loop].
  - repeat constructor.
  - pose proof (step_not_flow_seen recordCls parts c s) as Hs.
    destruct (genRecord_step recordCls parts c s) as [[ev c'] s'].
    cbn [fst] in Hs. destruct ev as [r|e]; cbn [logged]; [apply IH|].
    constructor; [now apply Hs|apply IH].
Qed.

Lemma parser_not_flow_seen {R : Type} (recordCls : RecordCls R) (f : File)
  (lineLambda : string -> string) :
  Forall (fun e => is_flow_seen e = false)
    (logged (genRecord f recordCls lineLambda)).
Proof.
  unfold genRecord, genFields. cbn [genRecord_loop logged].
  constructor; [reflexivity|].
  rewrite <- (map_map (fun line => PyStr.split ","%char (lineLambda line)) Yield).
  apply loop_not_flow_seen.
Qed.

Lemma flow_trace_split (evs : list (Event FlowLogRecordV2.t)) :
  Forall (fun e => is_flow_seen e = false) (logged evs) ->
  filter is_flow_seen (flow_trace evs) = map flow_seen (yielded evs)
  /\ filter (fun e => negb (is_flow_seen e)) (flow_trace evs) = logged evs.
Proof.
  induction evs as [|[r|e] evs IH]; cbn [logged flow_trace yielded map filter].
  - auto.
  - intro H. destruct (IH H) as [I1 I2]. cbn [flow_seen is_flow_seen negb].
    now rewrite I1, I2.
  - intro H. apply Forall_cons_iff in H. destruct H as [He H].
    destruct (IH H) as [I1 I2]. rewrite He. cbn [negb]. now rewrite I1, I2.
Qed.

(** X17. The second loop adds to the output of the process one log entry
    per yielded flow record, in order, carrying the destination port and
    the value text of the protocol, and besides these nothing but the
    parser's own entries, in their order. *)
Theorem flow_loop_log (st : State) (flowFile : File) :
  io (aggregate st flowFile)
  = io st ++ map LogLine (flow_trace (flow_events flowFile))
  /\ filter is_flow_seen (flow_trace (flow_events flowFile))
     = map (fun r =>
              (INFO, FlowSeen (FlowLogRecordV2.dstPort r)
                       (IANAProtocolNum_value (FlowLogRecordV2.protocol r))))
         (yielded (flow_events flowFile))
  /\ filter (fun e => negb (is_flow_seen e)) (flow_trace (flow_events flowFile))
     = logged (flow_events flowFile).
Proof.
  split; [apply aggregate_io|].
  apply flow_trace_split. apply parser_not_flow_seen.
Qed.

(** ** [main] and the file system *)

Lemma main_trace_prefix (a b c : string) (flowFile tagFile : File) :
  io (do_io (OpenWrite c)
        (aggregate
           (do_io (OpenRead a) (build (do_io (OpenRead b) initial) tagFile))
           flowFile))
  = OpenRead b :: map LogLine (logged (tag_events tagFile))
    ++ OpenRead a :: map LogLine (flow_trace (flow_events flowFile))
    ++ [OpenWrite c].
Proof.
  cbn [do_io io]. rewrite aggregate_io. cbn [do_io io]. rewrite build_io.
  cbn [do_io io initial app]. now rewrite <- !app_assoc.
Qed.

(** X18. An [open] that fails ends the run there with status 1. When the
    mapping file cannot be opened, the attempt is all that happens. When
    the mapping file has been read and the flow log cannot be opened, the
    output path is not opened. When both have been read and the output
    path cannot be opened, nothing is written. In each case what came
    before the failed [open] has happened as in a run without failure. *)
Theorem main_stops_at_failed_open (w : World) (a b c : string) :
  (read_file w b = None ->
   main w a b c = {| trace := [OpenRead b]; exit_status := 1 |})
  /\ (forall tagFile,
        read_file w b = Some tagFile ->
        read_file w a = None ->
        main w a b c
        = {| trace :=
               OpenRead b :: map LogLine (logged (tag_events tagFile))
               ++ [OpenRead a];
             exit_status := 1 |})
  /\ (forall tagFile flowFile,
        read_file w b = Some tagFile ->
        read_file w a = Some flowFile ->
        can_write w c = false ->
        main w a b c
        = {| trace :=
               OpenRead b :: map LogLine (logged (tag_events tagFile))
               ++ OpenRead a :: map LogLine (flow_trace (flow_events flowFile))
               ++ [OpenWrite c];
             exit_status := 1 |}).
Proof.
  split; [|split].
  - intro Rb. unfold main. now rewrite Rb.
  - intros tagFile Rb Ra. unfold main, fatal. rewrite Rb, Ra.
    cbn [do_io io]. rewrite build_io. cbn [do_io io initial app].
    reflexivity.
  - intros tagFile flowFile Rb Ra Wc. unfold main, fatal. rewrite Rb, Ra, Wc.
    now rewrite main_trace_prefix.
Qed.

Lemma main_stops_at_failed_open_witness :
  main sample_world "flows.csv" "missing.csv" "out.csv"
  = {| trace := [OpenRead "missing.csv"]; exit_status := 1 |}
  /\ main sample_world "missing.csv" "tags.csv" "out.csv"
     = {| trace :=
            OpenRead "tags.csv"
            :: map LogLine (logged (tag_events sample_tag_file))
            ++ [OpenRead "missing.csv"];
          exit_status := 1 |}.
Proof.
  split.
  - apply (proj1 (main_stops_at_failed_open sample_world "flows.csv"
                    "missing.csv" "out.csv")).
    reflexivity.
  - apply (proj1 (proj2 (main_stops_at_failed_open sample_world "missing.csv"
                           "tags.csv" "out.csv")) sample_tag_file);
      reflexivity.
Defined.

(** ** What a skipped line leaves in the log *)

(** X20. Every data line that yields no record leaves one entry in the
    log of the parser, and the entry quotes the line as the line
    transform left it (stripped, and lowered for the mapping file): an
    INFO entry when the field count is wrong, a WARNING entry with the
    error otherwise. *)
Theorem skipped_line_is_quoted {R : Type} (recordCls : RecordCls R)
  (lineLambda : string -> string) (f : File) (line : string) :
  In line (tl f) ->
  accepted recordCls (PyStr.split ","%char (lineLambda line)) = None ->
  (wrong_count recordCls (PyStr.split ","%char (lineLambda line)) = true
   /\ In (INFO, SkippingInvalidRecord (lineLambda line))
        (logged (genRecord f recordCls lineLambda)))
  \/ (wrong_count recordCls (PyStr.split ","%char (lineLambda line)) = false
      /\ exists e,
           In (WARNING, SkippingLine (lineLambda line) e)
             (logged (genRecord f recordCls lineLambda))).
Proof.
  intros Hin Hacc.
  assert (HL : logged (genRecord f recordCls lineLambda)
               = (INFO, CsvHeader (PyStr.strip (hd EmptyString f)))
                 :: logged (genRecord_loop recordCls
                              (map Yield (data_fields f lineLambda)) 0 0)).
  { unfold genRecord, genFields, data_fields. cbn [genRecord_loop logged].
    now rewrite map_map. }
  rewrite HL, loop_logged.
  assert (Hf : In (PyStr.split ","%char (lineLambda line))
                 (data_fields f lineLambda)).
  { unfold data_fields.
    apply (in_map (fun l => PyStr.split ","%char (lineLambda l))). exact Hin. }
  pose proof (proj1 (split_facts ","%char (lineLambda line))) as J.
  change (String ","%char EmptyString) with ","%string in J.
  assert (Hb : forall e,
             In e (line_log recordCls (PyStr.split ","%char (lineLambda line))) ->
             In e ((INFO, CsvHeader (PyStr.strip (hd EmptyString f)))
                   :: body_log recordCls (data_fields f lineLambda)
                   ++ [(INFO,
                        Completed (cls_name recordCls)
                          (0 + Z.of_nat (List.length
                                           (records_of recordCls
                                              (data_fields f lineLambda))))
                          (0 + Z.of_nat (List.length
                                           (filter is_warning
                                              (body_log recordCls
                                                 (data_fields f lineLambda)))))
                          (0 + Z.of_nat (List.length
                                           (filter is_warning
                                              (body_log recordCls
                                                 (data_fields f lineLambda))))
                           + (0 + Z.of_nat (List.length
                                              (records_of recordCls
                                                 (data_fields f lineLambda))))))])).
  { intros e He. right. apply in_or_app. left. unfold body_log.
    apply in_flat_map. eauto. }
  destruct (line_log_cases recordCls (PyStr.split ","%char (lineLambda line)))
    as [(W & _ & L)|[(W & _ & e & L)|(_ & [r A] & _)]].
  - left. split; [exact W|]. apply Hb. rewrite L, J. now left.
  - right. split; [exact W|]. exists e. apply Hb. rewrite L, J. now left.
  - congruence.
Qed.

Lemma skipped_line_is_quoted_witness :
  In (INFO, SkippingInvalidRecord (tag_lineLambda "25,tcp"))
    (logged (genRecord short_tag_file TagRecordCls tag_lineLambda)).
Proof.
  destruct (skipped_line_is_quoted TagRecordCls tag_lineLambda short_tag_file
              "25,tcp" (or_introl eq_refl) eq_refl) as [[_ H]|[W _]].
  - exact H.
  - discriminate W.
Defined.

(** ** No check on ports and protocols *)

(** X21. The mapping parser checks neither the range of a port nor the
    name of a protocol: for every integer that an integer text can hold
    (at most 4300 digits), negative or beyond 65535, and every two texts,
    the three fields made of the integer as printed and the two texts
    give a tag record holding them, and storing it puts it in the table
    under that port and that text. *)
Theorem tag_record_unchecked (n : Z) (protocol tag : string) (tbl : TagTable) :
  Z.abs n < 10 ^ PyStr.max_str_digits ->
  accepted TagRecordCls [PyStr.str_of_int n; protocol; tag]
  = Some (TagRecord.mk n protocol tag)
  /\ dict_get key_eqb (n, protocol)
       (tagMappings
          (tag_step {| tagMappings := tbl; untaggedCounter := 0; io := [] |}
             (Yield (TagRecord.mk n protocol tag))))
     = Some (TagRecord.mk n protocol tag, 0).
Proof.
  intro B. split.
  - unfold accepted, genRecord_step.
    cbn [List.length TagRecordCls cls_annotations Nat.eqb negb coerce_all coerce].
    now rewrite (int_str_of_int n B).
  - cbn [tag_step tagMappings TagRecord.dstPort TagRecord.protocol].
    apply (dict_get_set_eq key_eqb key_eqb_eq).
Qed.

Lemma tag_record_unchecked_witness :
  accepted TagRecordCls [PyStr.str_of_int (-70000); "no-such-protocol"; "x"]
  = Some (TagRecord.mk (-70000) "no-such-protocol" "x").
Proof.
  apply (proj1 (tag_record_unchecked (-70000) "no-such-protocol" "x" [] eq_refl)).
Defined.

(** ** Instances of the characterisations *)

Lemma tag_record_accepted_witness :
  accepted TagRecordCls ["25"; "tcp"; "email"]
  = Some (TagRecord.mk 25 "tcp" "email").
Proof.
  apply (proj2 (tag_record_accepted ["25"; "tcp"; "email"]
                  (TagRecord.mk 25 "tcp" "email"))).
  exists "25". split; reflexivity.
Defined.

Lemma flow_record_accepted_witness :
  accepted FlowLogRecordV2Cls
    ["2"; "acct"; "eni-1"; "10.0.0.1"; "10.0.0.2"; "49152"; "25"; "6";
     "10"; "840"; "1"; "2"; "ACCEPT"; "OK"]
  = Some sample_record.
Proof.
  apply (proj2 (flow_record_accepted _ sample_record)).
  exists "2", "49152", "25", "10", "840", "1", "2". repeat split.
Defined.

Lemma table_order_first_occurrence_witness :
  In (443, "tcp") (dict_keys (tagMappings (build initial sample_tag_file))).
Proof.
  apply (proj2 (proj2 (proj2 (table_order_first_occurrence sample_tag_file))
                  (443, "tcp"))).
  exists (TagRecord.mk 443 "tcp" "web"). split; [|reflexivity].
  vm_compute. tauto.
Defined.
